(** * Markdown Animator: the content-generation pipeline

    A shallow embedding of [src/components/MarkdownAnimator.tsx] and of its
    sibling revisions: the sectionizer [splitMarkdownIntoSections], the stream
    decoder and fence clean-up inside [generateMermaidDiagram] and
    [handleChatSubmit], the preview document of [UnifiedCanvas], the keyword
    driven diagram synthesizer, and the [generatingMermaid] slot of the
    [MarkdownAnimator] component.

    JavaScript strings are sequences of UTF-16 code units; they are modelled
    as lists of [N]. *)

From Stdlib Require Import List NArith Arith Bool Lia String Ascii DecimalString
  DecimalN.
Import ListNotations.

Set Warnings "-register-all".

(* ================================================================== *)
(** ** The JavaScript runtime primitives the code calls *)
(* ================================================================== *)

Module JS.

Definition jsstring := list N.

(** A literal of the source, code unit by code unit. *)
Definition lit (s : string) : jsstring :=
  map N_of_ascii (list_ascii_of_string s).

(** The double quote character, and a quoted literal. *)
Definition dq : jsstring := [34%N].

Definition LF : N := 10%N.
Definition CR : N := 13%N.

Definition code_eqb (a b : N) : bool := N.eqb a b.

(** ECMAScript LineTerminator: LF, CR, LS, PS. *)
Definition isLineTerminator (c : N) : bool :=
  N.eqb c 10 || N.eqb c 13 || N.eqb c 8232 || N.eqb c 8233.

(** ECMAScript WhiteSpace (TAB, VT, FF, SP, NBSP, ZWNBSP and the Zs
    category) together with LineTerminator: what [String.prototype.trim]
    strips and what the regular expression class [\s] matches. *)
Definition isWhiteSpace (c : N) : bool :=
  N.eqb c 9 || N.eqb c 11 || N.eqb c 12 || N.eqb c 32 || N.eqb c 160
  || N.eqb c 5760 || (N.leb 8192 c && N.leb c 8202)
  || N.eqb c 8239 || N.eqb c 8287 || N.eqb c 12288 || N.eqb c 65279
  || isLineTerminator c.

Fixpoint str_eqb (a b : jsstring) : bool :=
  match a, b with
  | [], [] => true
  | x :: a', y :: b' => N.eqb x y && str_eqb a' b'
  | _, _ => false
  end.

(** [s.startsWith(p)] *)
Fixpoint startsWith (p s : jsstring) : bool :=
  match p with
  | [] => true
  | x :: p' =>
      match s with
      | [] => false
      | y :: s' => N.eqb x y && startsWith p' s'
      end
  end.

(** [s.includes(p)] *)
Fixpoint includes (p s : jsstring) : bool :=
  startsWith p s ||
  match s with
  | [] => false
  | _ :: s' => includes p s'
  end.

Fixpoint dropWhile (f : N -> bool) (s : jsstring) : jsstring :=
  match s with
  | [] => []
  | c :: s' => if f c then dropWhile f s' else s
  end.

Definition trimStart (s : jsstring) : jsstring := dropWhile isWhiteSpace s.

Fixpoint trimEnd (s : jsstring) : jsstring :=
  match s with
  | [] => []
  | c :: s' =>
      match trimEnd s' with
      | [] => if isWhiteSpace c then [] else [c]
      | t => c :: t
      end
  end.

(** [s.trim()] *)
Definition trim (s : jsstring) : jsstring := trimEnd (trimStart s).

(** [s.substring(0, n)] *)
Definition substring0 (n : nat) (s : jsstring) : jsstring := firstn n s.

(** [s.slice(n)] for a non-negative [n]. *)
Definition slice (n : nat) (s : jsstring) : jsstring := skipn n s.

(** Puts a code unit in front of the first piece of a split. *)
Definition cons_head (c : N) (l : list jsstring) : list jsstring :=
  match l with
  | [] => [[c]]
  | x :: r => (c :: x) :: r
  end.

(** [s.split('\n')]: the pieces between line feeds; never empty. *)
Fixpoint split_nl (s : jsstring) : list jsstring :=
  match s with
  | [] => [[]]
  | c :: s' =>
      if N.eqb c LF then [] :: split_nl s'
      else cons_head c (split_nl s')
  end.

(** [s.split(/\r?\n/)]: a line feed separates, and takes a carriage return
    that stands directly before it. *)
Fixpoint split_lines (s : jsstring) : list jsstring :=
  match s with
  | [] => [[]]
  | c :: s' =>
      if N.eqb c LF then [] :: split_lines s'
      else
        match s' with
        | d :: s'' =>
            if N.eqb c CR && N.eqb d LF then [] :: split_lines s''
            else cons_head c (split_lines s')
        | [] => [[c]]
        end
  end.

(** Decimal rendering of a number that is a natural: template literals
    [${n}] and string concatenation use it. *)
Definition dec (n : N) : jsstring :=
  lit (NilEmpty.string_of_uint (N.to_uint n)).

End JS.

Import JS.

(* ================================================================== *)
(** ** Sectionizer: [splitMarkdownIntoSections] *)
(* ================================================================== *)

Module Sectionizer.

(** [type Section]: [code] and [mermaidCode] are optional fields. *)
Record Section := mkSection {
  id : jsstring;
  heading : jsstring;
  body : jsstring;
  code : option jsstring;
  mermaidCode : option jsstring
}.

(** The regular expression [/^(#{1,6})\s+(.+)$/], matched with the engine's
    backtracking order.  Each function is one piece of the pattern applied to
    the rest of the line, and returns capture group 2 of the first match
    found. *)

(** [(.+)$]: at least one code unit, none a line terminator, up to the end
    of the input (no [m] flag, so [$] is the end of the string). *)
Definition dot_plus_end (s : jsstring) : bool :=
  match s with
  | [] => false
  | _ => forallb (fun c => negb (isLineTerminator c)) s
  end.

(** [\s+(.+)$]: greedy, one space more first; on failure give it back. *)
Fixpoint spaces_then_text (s : jsstring) : option jsstring :=
  match s with
  | [] => None
  | c :: s' =>
      if isWhiteSpace c then
        match spaces_then_text s' with
        | Some g => Some g
        | None => if dot_plus_end s' then Some s' else None
        end
      else None
  end.

(** [#{1,n}\s+(.+)$]: greedy, one hash more first; on failure go on with
    the rest of the pattern after the hashes taken so far. *)
Fixpoint hashes_then (n : nat) (s : jsstring) : option jsstring :=
  match n with
  | O => None
  | S n' =>
      match s with
      | [] => None
      | c :: s' =>
          if N.eqb c 35 then
            match hashes_then n' s' with
            | Some g => Some g
            | None => spaces_then_text s'
            end
          else None
      end
  end.

(** [/^(#{1,6})\s+(.+)$/.exec(line)], reduced to capture group 2. *)
Definition headingMatch (line : jsstring) : option jsstring :=
  hashes_then 6 line.

(** The loop's variables: [sections] and [current]. *)
Definition loop_state := (list Section * option Section)%type.

(** [pushCurrent] *)
Definition pushCurrent (st : loop_state) : list Section :=
  match snd st with
  | Some c =>
      fst st ++ [mkSection (id c) (heading c) (trim (body c)) (code c) (mermaidCode c)]
  | None => fst st
  end.

(** [`${sections.length}-${Date.now()}`] *)
Definition fresh_id (sections : list Section) (now : N) : jsstring :=
  dec (N.of_nat (List.length sections)) ++ lit "-" ++ dec now.

(** One iteration of [for (const line of lines)]; [now] is what
    [Date.now()] returns in this iteration. *)
Definition step (now : N) (st : loop_state) (line : jsstring) : loop_state :=
  match headingMatch line with
  | Some g =>
      let sections := pushCurrent st in
      (sections, Some (mkSection (fresh_id sections now) (trim g) [] None None))
  | None =>
      match snd st with
      | Some c =>
          (fst st,
           Some (mkSection (id c) (heading c) (body c ++ line ++ [LF])
                           (code c) (mermaidCode c)))
      | None =>
          (fst st,
           Some (mkSection (fresh_id (fst st) now) (lit "Introduction")
                           (line ++ [LF]) None None))
      end
  end.

(** The loop from iteration [i] on; [clock i] is the reading of
    [Date.now()] in iteration [i]. *)
Fixpoint loop (clock : nat -> N) (i : nat) (lines : list jsstring)
  (st : loop_state) : loop_state :=
  match lines with
  | [] => st
  | line :: rest => loop clock (S i) rest (step (clock i) st line)
  end.

Definition splitMarkdownIntoSections (clock : nat -> N) (markdown : jsstring)
  : list Section :=
  pushCurrent (loop clock 0 (split_lines markdown) ([], None)).

(** Heading and body of a section: its content, identifier apart. *)
Definition content (s : Section) : jsstring * jsstring := (heading s, body s).

End Sectionizer.

Import Sectionizer.

(* ================================================================== *)
(** ** JSON values and a model of the built-in [JSON.parse] *)
(* ================================================================== *)

Module JSON.

(** A parsed JSON value.  A number keeps its lexeme: its value is an IEEE
    double, which is left to the runtime. *)
Inductive json :=
| JNull
| JBool (b : bool)
| JNumber (lexeme : jsstring)
| JString (s : jsstring)
| JArray (items : list json)
| JObject (members : list (jsstring * json)).

Definition is_json_ws (c : N) : bool :=
  N.eqb c 32 || N.eqb c 9 || N.eqb c 10 || N.eqb c 13.

Definition skip_ws (s : jsstring) : jsstring := dropWhile is_json_ws s.

Definition is_digit (c : N) : bool := N.leb 48 c && N.leb c 57.

(** The longest prefix of digits, and the rest. *)
Fixpoint digits (s : jsstring) : jsstring * jsstring :=
  match s with
  | [] => ([], [])
  | c :: s' =>
      if is_digit c then let (d, r) := digits s' in (c :: d, r)
      else ([], s)
  end.

Definition hex_value (c : N) : option N :=
  if N.leb 48 c && N.leb c 57 then Some (c - 48)%N
  else if N.leb 65 c && N.leb c 70 then Some (c - 55)%N
  else if N.leb 97 c && N.leb c 102 then Some (c - 87)%N
  else None.

Definition hex4 (a b c d : N) : option N :=
  match hex_value a, hex_value b, hex_value c, hex_value d with
  | Some x, Some y, Some z, Some w => Some (((x * 16 + y) * 16 + z) * 16 + w)%N
  | _, _, _, _ => None
  end.

(** The code unit of a one-letter escape. *)
Definition simple_escape (e : N) : option N :=
  if N.eqb e 34 then Some 34%N          (* quote *)
  else if N.eqb e 92 then Some 92%N     (* backslash *)
  else if N.eqb e 47 then Some 47%N     (* slash *)
  else if N.eqb e 98 then Some 8%N      (* b: backspace *)
  else if N.eqb e 102 then Some 12%N    (* f: form feed *)
  else if N.eqb e 110 then Some 10%N    (* n: line feed *)
  else if N.eqb e 114 then Some 13%N    (* r: carriage return *)
  else if N.eqb e 116 then Some 9%N     (* t: tab *)
  else None.

Definition cons_fst (c : N) (r : option (jsstring * jsstring))
  : option (jsstring * jsstring) :=
  match r with
  | Some (t, rest) => Some (c :: t, rest)
  | None => None
  end.

(** The characters of a string after its opening quote, up to and with the
    closing quote. *)
Fixpoint parse_chars (s : jsstring) : option (jsstring * jsstring) :=
  match s with
  | [] => None
  | c :: r =>
      if N.eqb c 34 then Some ([], r)
      else if N.eqb c 92 then
        match r with
        | [] => None
        | e :: r1 =>
            if N.eqb e 117 then
              match r1 with
              | h1 :: h2 :: h3 :: h4 :: r2 =>
                  match hex4 h1 h2 h3 h4 with
                  | Some v => cons_fst v (parse_chars r2)
                  | None => None
                  end
              | _ => None
              end
            else
              match simple_escape e with
              | Some v => cons_fst v (parse_chars r1)
              | None => None
              end
        end
      else if N.ltb c 32 then None
      else cons_fst c (parse_chars r)
  end.

(** A number: an optional minus; then zero, or a digit from 1 to 9 and
    more digits; then optionally a point and digits; then optionally e or E,
    a sign and digits.  The lexeme and the rest are returned. *)
Definition parse_number (s : jsstring) : option (jsstring * jsstring) :=
  let (sign, s1) :=
    match s with
    | c :: r => if N.eqb c 45 then ([c], r) else ([], s)
    | [] => ([], s)
    end in
  let int_part :=
    match s1 with
    | c :: r =>
        if N.eqb c 48 then Some ([c], r)
        else if is_digit c then Some (digits s1)
        else None
    | [] => None
    end in
  match int_part with
  | None => None
  | Some (ip, s2) =>
      let frac :=
        match s2 with
        | c :: r =>
            if N.eqb c 46 then
              match digits r with
              | ([], _) => None
              | (d, r') => Some (c :: d, r')
              end
            else Some ([], s2)
        | [] => Some ([], s2)
        end in
      match frac with
      | None => None
      | Some (fp, s3) =>
          let expo :=
            match s3 with
            | c :: r =>
                if N.eqb c 101 || N.eqb c 69 then
                  let (sg, r1) :=
                    match r with
                    | g :: r' =>
                        if N.eqb g 43 || N.eqb g 45 then ([g], r') else ([], r)
                    | [] => ([], r)
                    end in
                  match digits r1 with
                  | ([], _) => None
                  | (d, r2) => Some (c :: sg ++ d, r2)
                  end
                else Some ([], s3)
            | [] => Some ([], s3)
            end in
          match expo with
          | None => None
          | Some (ep, s4) => Some (sign ++ ip ++ fp ++ ep, s4)
          end
      end
  end.

(** Recursive descent; [fuel] bounds the number of nested calls. *)
Fixpoint parse_value (fuel : nat) (s : jsstring) : option (json * jsstring) :=
  match fuel with
  | O => None
  | S f =>
      match skip_ws s with
      | [] => None
      | c :: r =>
          if N.eqb c 123 then
            match skip_ws r with
            | d :: r' =>
                if N.eqb d 125 then Some (JObject [], r')
                else
                  match parse_members f r with
                  | Some (ms, r'') => Some (JObject ms, r'')
                  | None => None
                  end
            | [] => None
            end
          else if N.eqb c 91 then
            match skip_ws r with
            | d :: r' =>
                if N.eqb d 93 then Some (JArray [], r')
                else
                  match parse_elements f r with
                  | Some (vs, r'') => Some (JArray vs, r'')
                  | None => None
                  end
            | [] => None
            end
          else if N.eqb c 34 then
            match parse_chars r with
            | Some (t, r') => Some (JString t, r')
            | None => None
            end
          else if startsWith (lit "true") (c :: r) then
            Some (JBool true, skipn 4 (c :: r))
          else if startsWith (lit "false") (c :: r) then
            Some (JBool false, skipn 5 (c :: r))
          else if startsWith (lit "null") (c :: r) then
            Some (JNull, skipn 4 (c :: r))
          else
            match parse_number (c :: r) with
            | Some (l, r') => Some (JNumber l, r')
            | None => None
            end
      end
  end
with parse_elements (fuel : nat) (s : jsstring)
  : option (list json * jsstring) :=
  match fuel with
  | O => None
  | S f =>
      match parse_value f s with
      | None => None
      | Some (v, r) =>
          match skip_ws r with
          | [] => None
          | c :: r' =>
              if N.eqb c 44 then
                match parse_elements f r' with
                | Some (vs, r'') => Some (v :: vs, r'')
                | None => None
                end
              else if N.eqb c 93 then Some ([v], r')
              else None
          end
      end
  end
with parse_members (fuel : nat) (s : jsstring)
  : option (list (jsstring * json) * jsstring) :=
  match fuel with
  | O => None
  | S f =>
      match skip_ws s with
      | [] => None
      | q :: r =>
          if N.eqb q 34 then
            match parse_chars r with
            | None => None
            | Some (k, r1) =>
                match skip_ws r1 with
                | [] => None
                | c :: r2 =>
                    if N.eqb c 58 then
                      match parse_value f r2 with
                      | None => None
                      | Some (v, r3) =>
                          match skip_ws r3 with
                          | [] => None
                          | e :: r4 =>
                              if N.eqb e 44 then
                                match parse_members f r4 with
                                | Some (ms, r5) => Some ((k, v) :: ms, r5)
                                | None => None
                                end
                              else if N.eqb e 125 then Some ([(k, v)], r4)
                              else None
                          end
                      end
                    else None
                end
            end
          else None
      end
  end.

(** [JSON.parse(text)]: [None] stands for the [SyntaxError] it throws. *)
Definition parse (text : jsstring) : option json :=
  match parse_value (2 * List.length text + 2) text with
  | Some (v, r) =>
      match skip_ws r with
      | [] => Some v
      | _ => None
      end
  | None => None
  end.

End JSON.

Import JSON.

(* ================================================================== *)
(** ** Stream decoder and fence clean-up of [generateMermaidDiagram] *)
(* ================================================================== *)

Module Decoder.

(** What a statement can do: complete, or throw. *)
Inductive exn := SyntaxError | TypeError.

Inductive completion (A : Type) :=
| Normal (a : A)
| Throw (e : exn).

Arguments Normal {A} a.
Arguments Throw {A} e.

(** [data[key]] on a value [JSON.parse] returned: [None] is [undefined].
    Reading a property of [null] throws; members that [JSON.parse] created
    are own properties, a later duplicate key overriding an earlier one; no
    prototype of these values defines [type] or [textDelta], the only keys
    the decoder reads. *)
Fixpoint lookup (key : jsstring) (ms : list (jsstring * json)) : option json :=
  match ms with
  | [] => None
  | (k, v) :: ms' =>
      match lookup key ms' with
      | Some v' => Some v'
      | None => if str_eqb k key then Some v else None
      end
  end.

Definition get_property (data : json) (key : jsstring)
  : completion (option json) :=
  match data with
  | JNull => Throw TypeError
  | JObject ms => Normal (lookup key ms)
  | _ => Normal None
  end.

(** [v === s] for a string literal [s]. *)
Definition strict_eq_string (v : option json) (s : jsstring) : bool :=
  match v with
  | Some (JString t) => str_eqb t s
  | _ => false
  end.

(** [a.join(sep)] on strings. *)
Fixpoint join (sep : jsstring) (l : list jsstring) : jsstring :=
  match l with
  | [] => []
  | [x] => x
  | x :: r => x ++ sep ++ join sep r
  end.

Section Runtime.

(** The built-in [JSON.parse]; [None] is the [SyntaxError] it throws. *)
Variable JSON_parse : jsstring -> option json.

(** The runtime's reading of a number lexeme as a double: whether the
    double is neither zero nor NaN, and [Number.prototype.toString]. *)
Variable number_truthy : jsstring -> bool.
Variable number_toString : jsstring -> jsstring.

(** [ToBoolean] *)
Definition truthy (v : option json) : bool :=
  match v with
  | None => false
  | Some JNull => false
  | Some (JBool b) => b
  | Some (JNumber l) => number_truthy l
  | Some (JString s) => negb (str_eqb s [])
  | Some (JArray _) => true
  | Some (JObject _) => true
  end.

(** [ToString], as [+=] on a string applies it; [None] is the [TypeError]
    it throws.  An object prints as [[object Object]] through the inherited
    [toString], unless a member named [toString] shadows it: a parsed value
    is never callable, and the conversion throws.  An array joins the
    strings of its items with a comma, [null] items as the empty string. *)
Fixpoint toString (v : json) : option jsstring :=
  match v with
  | JNull => Some (lit "null")
  | JBool true => Some (lit "true")
  | JBool false => Some (lit "false")
  | JNumber l => Some (number_toString l)
  | JString s => Some s
  | JArray items =>
      option_map (join (lit ","))
        (fold_right
           (fun x acc =>
              match (match x with JNull => Some [] | _ => toString x end), acc with
              | Some t, Some ts => Some (t :: ts)
              | _, _ => None
              end)
           (Some []) items)
  | JObject ms =>
      match lookup (lit "toString") ms with
      | Some _ => None
      | None => Some (lit "[object Object]")
      end
  end.

(** The body of the [try] block for one line that starts with the marker:
<<
   const data = JSON.parse(line.slice(2));
   if (data.type === 'text-delta' && data.textDelta) {
     mermaidCode += data.textDelta;
   }
>> *)
Definition try_block (mermaidCode line : jsstring) : completion jsstring :=
  match JSON_parse (slice 2 line) with
  | None => Throw SyntaxError
  | Some data =>
      match get_property data (lit "type") with
      | Throw e => Throw e
      | Normal ty =>
          if strict_eq_string ty (lit "text-delta") then
            match get_property data (lit "textDelta") with
            | Throw e => Throw e
            | Normal None => Normal mermaidCode
            | Normal (Some td) =>
                if truthy (Some td) then
                  match toString td with
                  | Some t => Normal (mermaidCode ++ t)
                  | None => Throw TypeError
                  end
                else Normal mermaidCode
            end
          else Normal mermaidCode
      end
  end.

(** One iteration of [for (const line of lines)]: the [catch] block is
    empty, so a throwing line leaves [mermaidCode] as it was. *)
Definition handle_line (mermaidCode line : jsstring) : jsstring :=
  if startsWith (lit "0:") line then
    match try_block mermaidCode line with
    | Normal m => m
    | Throw _ => mermaidCode
    end
  else mermaidCode.

(** One iteration of [while (true)] with a chunk read; [chunk] is the text
    that [decoder.decode(value)] returns for it: [chunk.split('\n')] and the
    loop over its lines. *)
Definition handle_chunk (mermaidCode chunk : jsstring) : jsstring :=
  fold_left handle_line (split_nl chunk) mermaidCode.

(** The read loop over the chunks the transport delivers, from
    [let mermaidCode = ''] to [done]. *)
Definition decode (chunks : list jsstring) : jsstring :=
  fold_left handle_chunk chunks [].

(** The text one line adds to the payload. *)
Definition delta (line : jsstring) : jsstring := handle_line [] line.

End Runtime.

(** The optional line feed [\n?] at the end of a fence pattern. *)
Definition skip_nl (s : jsstring) : jsstring :=
  match s with
  | c :: r => if N.eqb c LF then r else s
  | [] => []
  end.

(** [s.replace(/PAT\n?/g, '')] for a literal [PAT]: every match, scanning
    from the left, is deleted together with one line feed after it, and the
    scan goes on after the match.  Each step consumes a code unit, so fuel
    above the length of [s] is never used up. *)
Fixpoint remove_all (fuel : nat) (pat s : jsstring) : jsstring :=
  match fuel with
  | O => s
  | S f =>
      match s with
      | [] => []
      | c :: r =>
          if startsWith pat s then
            remove_all f pat (skip_nl (skipn (List.length pat) s))
          else c :: remove_all f pat r
      end
  end.

Definition replace_fence (pat s : jsstring) : jsstring :=
  remove_all (S (List.length s)) pat s.

Definition fence : jsstring := lit "```".

(** [generateMermaidDiagram]:
    [.replace(/```mermaid\n?/g, '').replace(/```\n?/g, '').trim()] *)
Definition cleanup (s : jsstring) : jsstring :=
  trim (replace_fence fence (replace_fence (lit "```mermaid") s)).

(** [handleChatSubmit]:
    [.replace(/```mermaid\n?/g, '').replace(/```html\n?/g, '')
     .replace(/```\n?/g, '').trim()] *)
Definition cleanup_chat (s : jsstring) : jsstring :=
  trim (replace_fence fence
         (replace_fence (lit "```html")
           (replace_fence (lit "```mermaid") s))).

End Decoder.

Import Decoder.

(* ================================================================== *)
(** ** Preview renderer: [UnifiedCanvas] and [AnimationCanvas] *)
(* ================================================================== *)

Module Renderer.

(** [const defaultBlankSnippet] *)
Definition defaultBlankSnippet : jsstring :=
  lit "<!doctype html>
<html>
  <head>
    <meta charset=" ++ dq ++ lit "utf-8" ++ dq ++ lit " />
    <meta name=" ++ dq ++ lit "viewport" ++ dq ++ lit " content=" ++ dq ++ lit "width=device-width, initial-scale=1" ++ dq ++ lit " />
    <style>
      html, body { margin: 0; padding: 0; height: 100%; }
      .center { display: grid; place-items: center; height: 100%; font: 16px system-ui; }
    </style>
  </head>
  <body>
    <div class=" ++ dq ++ lit "center" ++ dq ++ lit ">Click the canvas to edit and paste your code.</div>
    <script>
      // You can paste your JS here. Include script tags to load libraries if needed.
      // Example: simple animation without external libs
      const el = document.querySelector('.center');
      let t = 0;
      setInterval(() => { el.style.transform = 'scale(' + (1 + 0.05*Math.sin(t)) + ')'; t += 0.2; }, 30);
    </script>
  </body>
</html>".

(** The template literal of [UnifiedCanvas] before [${mermaidCode}]. *)
Definition mermaid_head : jsstring :=
  lit "<!doctype html>
<html>
  <head>
    <meta charset=" ++ dq ++ lit "utf-8" ++ dq ++ lit " />
    <meta name=" ++ dq ++ lit "viewport" ++ dq ++ lit " content=" ++ dq ++ lit "width=device-width, initial-scale=1" ++ dq ++ lit " />
    <title>Mermaid Diagram</title>
    <script src=" ++ dq ++ lit "https://cdn.jsdelivr.net/npm/mermaid@10.6.1/dist/mermaid.min.js" ++ dq ++ lit "></script>
    <style>
      * { box-sizing: border-box; }
      html, body { margin: 0; height: 100%; background: #f8fafc; font-family: system-ui, -apple-system, sans-serif; }
      .container { padding: 20px; max-width: 100%; margin: 0 auto; }
      .mermaid { text-align: center; }
    </style>
  </head>
  <body>
    <div class=" ++ dq ++ lit "container" ++ dq ++ lit ">
      <div class=" ++ dq ++ lit "mermaid" ++ dq ++ lit ">
".

(** The template literal of [UnifiedCanvas] after [${mermaidCode}]. *)
Definition mermaid_tail : jsstring :=
  lit "
      </div>
    </div>
    <script>
      mermaid.initialize({ 
        startOnLoad: true,
        theme: 'default',
        flowchart: { useMaxWidth: true, htmlLabels: true },
        sequence: { useMaxWidth: true },
        class: { useMaxWidth: true }
      });
    </script>
  </body>
</html>".

(** [if (x)] on an optional string: defined and not empty. *)
Definition present (x : option jsstring) : bool :=
  match x with
  | Some (_ :: _) => true
  | _ => false
  end.

(** The string an optional prop holds where the code reads it (always
    under a test that it is present). *)
Definition text (x : option jsstring) : jsstring :=
  match x with
  | Some s => s
  | None => lit "undefined"
  end.

(** The [useMemo] body of [UnifiedCanvas]. *)
Definition srcDoc (mermaidCode animationCode : option jsstring) : jsstring :=
  if present mermaidCode then mermaid_head ++ text mermaidCode ++ mermaid_tail
  else if present animationCode then text animationCode
  else defaultBlankSnippet.

(** The [iframe] element a canvas renders: its two attributes. *)
Record Iframe := mkIframe {
  sandbox : jsstring;
  iframe_srcDoc : jsstring
}.

Definition UnifiedCanvas (mermaidCode animationCode : option jsstring) : Iframe :=
  mkIframe (lit "allow-scripts allow-same-origin")
           (srcDoc mermaidCode animationCode).

(** [AnimationCanvas]: [code ?? defaultBlankSnippet]. *)
Definition AnimationCanvas (code : option jsstring) : Iframe :=
  mkIframe (lit "allow-scripts allow-same-origin")
           (match code with Some c => c | None => defaultBlankSnippet end).

(** The [sandbox] attribute as the HTML Standard reads it: a set of tokens
    separated by ASCII whitespace.  A sandboxed frame has every restriction
    on, except those that a token lifts: [allow-scripts] lifts the ban on
    script execution, and [allow-same-origin] lifts the forced opaque
    origin, so that a [srcdoc] document keeps the origin of the page that
    embeds it and reaches its DOM, storage and cookies. *)
Definition is_ascii_ws (c : N) : bool :=
  N.eqb c 9 || N.eqb c 10 || N.eqb c 12 || N.eqb c 13 || N.eqb c 32.

Fixpoint tokens_aux (cur : jsstring) (s : jsstring) : list jsstring :=
  match s with
  | [] => match cur with [] => [] | _ => [rev cur] end
  | c :: s' =>
      if is_ascii_ws c then
        match cur with
        | [] => tokens_aux [] s'
        | _ => rev cur :: tokens_aux [] s'
        end
      else tokens_aux (c :: cur) s'
  end.

Definition tokens (attr : jsstring) : list jsstring := tokens_aux [] attr.

Definition has_token (t : jsstring) (f : Iframe) : bool :=
  existsb (str_eqb t) (tokens (sandbox f)).

(** Scripts of the embedded document run. *)
Definition scripts_allowed (f : Iframe) : bool :=
  has_token (lit "allow-scripts") f.

(** The embedded document has an opaque origin: no access to the state of
    the hosting page. *)
Definition host_state_denied (f : Iframe) : bool :=
  negb (has_token (lit "allow-same-origin") f).

End Renderer.

Import Renderer.

(* ================================================================== *)
(** ** Heuristic synthesizer: the keyword driven [generateMermaidDiagram] *)
(* ================================================================== *)

Module Synthesizer.

(** [.], [!] or [?] *)
Definition is_terminal (c : N) : bool :=
  N.eqb c 46 || N.eqb c 33 || N.eqb c 63.

(** [s.split(/[.!?]+/)]: a run of terminal marks separates; [after] tells
    that the code unit before was part of the run. *)
Fixpoint split_sentences_aux (after : bool) (s : jsstring) : list jsstring :=
  match s with
  | [] => [[]]
  | c :: s' =>
      if is_terminal c then
        if after then split_sentences_aux true s'
        else [] :: split_sentences_aux true s'
      else cons_head c (split_sentences_aux false s')
  end.

Definition split_sentences (s : jsstring) : list jsstring :=
  split_sentences_aux false s.

(** [body.split(/[.!?]+/).filter(s => s.trim().length > n)] *)
Definition sentences (n : nat) (body : jsstring) : list jsstring :=
  filter (fun s => Nat.ltb n (List.length (trim s))) (split_sentences body).

(** [clean.substring(0, n) + (clean.length > n ? '...' : '')] *)
Definition truncate (n : nat) (clean : jsstring) : jsstring :=
  substring0 n clean ++ (if Nat.ltb n (List.length clean) then lit "..." else []).

Definition has (clean : jsstring) (w : string) : bool := includes (lit w) clean.

(** The four [map] callbacks, one per diagram kind. *)
Definition step_label (s : jsstring) : jsstring :=
  let clean := trim s in
  if has clean "first" || has clean "initially" then lit "Initial Setup"
  else if has clean "then" || has clean "next" then lit "Main Process"
  else if has clean "finally" || has clean "complete" then lit "Finalization"
  else if has clean "evaluate" || has clean "assess" then lit "Evaluation"
  else truncate 20 clean.

Definition component_label (s : jsstring) : jsstring :=
  let clean := trim s in
  if has clean "hardware" then lit "Hardware"
  else if has clean "software" then lit "Software"
  else if has clean "interface" then lit "Interface"
  else if has clean "data" then lit "Data Layer"
  else if has clean "security" then lit "Security"
  else if has clean "performance" then lit "Performance"
  else truncate 15 clean.

Definition point_label (s : jsstring) : jsstring :=
  let clean := trim s in
  if has clean "advantage" || has clean "benefit" then lit "Advantages"
  else if has clean "disadvantage" || has clean "limitation" then lit "Limitations"
  else if has clean "difference" || has clean "contrast" then lit "Key Differences"
  else truncate 15 clean.

Definition concept_label (s : jsstring) : jsstring :=
  let clean := trim s in
  if has clean "important" || has clean "key" then lit "Key Points"
  else if has clean "benefit" || has clean "advantage" then lit "Benefits"
  else if has clean "challenge" || has clean "difficulty" then lit "Challenges"
  else if has clean "solution" || has clean "approach" then lit "Solutions"
  else if has clean "requirement" || has clean "need" then lit "Requirements"
  else if has clean "implementation" || has clean "deploy" then lit "Implementation"
  else truncate 20 clean.

(** The [forEach] that adds one edge per label:
    [`\n    A ARROW B${index + 1}[${label}]`], from [index] on. *)
Fixpoint edges (arrow : jsstring) (index : nat) (labels : list jsstring)
  : jsstring :=
  match labels with
  | [] => []
  | l :: rest =>
      ([LF] ++ lit "    A " ++ arrow ++ lit " B" ++ dec (N.of_nat (index + 1))
        ++ lit "[" ++ l ++ lit "]")
      ++ edges arrow (S index) rest
  end.

(** [`KIND\n    A[${section.heading}]`] *)
Definition root (kind heading : jsstring) : jsstring :=
  kind ++ [LF] ++ lit "    A[" ++ heading ++ lit "]".

(** [for (let i = from; i <= from + n - 1; i++)
      summary += `\n    style B${i} FILL`] *)
Fixpoint node_styles (fill : jsstring) (from n : nat) : jsstring :=
  match n with
  | O => []
  | S n' =>
      ([LF] ++ lit "    style B" ++ dec (N.of_nat from) ++ lit " " ++ fill)
      ++ node_styles fill (S from) n'
  end.

Definition amber : jsstring := lit "fill:#fef3c7,stroke:#f59e0b,stroke-width:2px".
Definition violet : jsstring := lit "fill:#ddd6fe,stroke:#8b5cf6,stroke-width:2px".

Section Runtime.

(** The built-in [String.prototype.toLowerCase]. *)
Variable toLowerCase : jsstring -> jsstring.

(** The branch conditions on [content = section.body.toLowerCase()]. *)
Definition is_workflow (body : jsstring) : bool :=
  let content := toLowerCase body in
  has content "workflow" || has content "process" || has content "step".

Definition is_system (body : jsstring) : bool :=
  let content := toLowerCase body in
  has content "component" || has content "system" || has content "architecture".

Definition is_comparison (body : jsstring) : bool :=
  let content := toLowerCase body in
  has content "compare" || has content "versus" || has content "difference".

(** The labels of the step nodes of the workflow branch. *)
Definition steps (body : jsstring) : list jsstring :=
  map step_label (firstn 4 (sentences 20 body)).

(** [summary] before the styling is added. *)
Definition diagram (heading body : jsstring) : jsstring :=
  if is_workflow body then
    root (lit "flowchart TD") heading
    ++ edges (lit "-->") 0 (steps body)
    ++ ([LF] ++ lit "    B" ++ dec (N.of_nat (List.length (steps body)))
        ++ lit " --> C[Complete]")
  else if is_system body then
    root (lit "graph TB") heading
    ++ edges (lit "---") 0 (map component_label (firstn 4 (sentences 15 body)))
  else if is_comparison body then
    root (lit "graph LR") heading
    ++ edges (lit "-->") 0 (map point_label (firstn 3 (sentences 15 body)))
  else
    root (lit "flowchart TD") heading
    ++ edges (lit "-->") 0 (map concept_label (firstn 3 (sentences 20 body))).

(** The styling directives added after the diagram. *)
Definition styling (body : jsstring) : jsstring :=
  let content := toLowerCase body in
  ([LF] ++ lit "    " ++ [LF]
    ++ lit "    style A fill:#e1f5fe,stroke:#0ea5e9,stroke-width:3px")
  ++
  (if has content "workflow" || has content "process" then
     ([LF] ++ lit "    style C fill:#c8e6c9,stroke:#22c55e,stroke-width:3px")
     ++ node_styles amber 1 4
   else if has content "component" || has content "system" then
     node_styles violet 1 4
   else node_styles amber 1 3).

(** The value of [summary] that [generateMermaidDiagram] stores as the
    section's [mermaidCode]. *)
Definition synthesize (heading body : jsstring) : jsstring :=
  diagram heading body ++ styling body.

End Runtime.

(** [toLowerCase] on a string of ASCII code units. *)
Definition toLowerCase_ascii (s : jsstring) : jsstring :=
  map (fun c => if N.leb 65 c && N.leb c 90 then (c + 32)%N else c) s.

End Synthesizer.

Import Synthesizer.

(* ================================================================== *)
(** ** Generation orchestrator: the [generatingMermaid] slot *)
(* ================================================================== *)

Module Orchestrator.

(** The component's state that generation reads and writes, and the
    attempts whose [fetch] or stream read is still pending (the promises of
    the event loop, oldest first, each with the [sectionId] of its call). *)
Record State := mkState {
  sections : list Section;
  generatingMermaid : option jsstring;
  inflight : list jsstring
}.

(** [sections.find(s => s.id === sectionId)] *)
Definition find_section (sectionId : jsstring) (l : list Section)
  : option Section :=
  find (fun s => str_eqb (id s) sectionId) l.

(** [generateMermaidDiagram(sectionId)] up to its first [await]: the
    lookup, the early return, [setGeneratingMermaid(sectionId)], and the
    request that is sent. *)
Definition start (st : State) (sectionId : jsstring) : State :=
  match find_section sectionId (sections st) with
  | None => st
  | Some _ =>
      mkState (sections st) (Some sectionId) (inflight st ++ [sectionId])
  end.

(** [disabled={generatingMermaid === s.id}] on the button of section
    [sectionId]. *)
Definition disabled (st : State) (sectionId : jsstring) : bool :=
  match generatingMermaid st with
  | Some g => str_eqb g sectionId
  | None => false
  end.

(** A click on the generate button of a section: a disabled button
    dispatches no event. *)
Definition click (st : State) (sectionId : jsstring) : State :=
  if disabled st sectionId then st else start st sectionId.

(** [prev.map(s => s.id === sectionId ? { ...s, mermaidCode } : s)] *)
Definition patch (sectionId mermaidCode : jsstring) (l : list Section)
  : list Section :=
  map (fun s =>
         if str_eqb (id s) sectionId
         then mkSection (id s) (heading s) (body s) (code s) (Some mermaidCode)
         else s) l.

(** Removes the oldest pending attempt of [sectionId]. *)
Fixpoint settle_one (sectionId : jsstring) (l : list jsstring) : list jsstring :=
  match l with
  | [] => []
  | x :: r => if str_eqb x sectionId then r else x :: settle_one sectionId r
  end.

(** The rest of [generateMermaidDiagram] once its request settles:
    [Some mermaidCode] when the stream was read to its end and cleaned up
    ([setSections], then the [finally]); [None] when the [try] threw (the
    [catch], then the [finally]). *)
Definition settle (st : State) (sectionId : jsstring)
  (result : option jsstring) : State :=
  mkState
    (match result with
     | Some mermaidCode => patch sectionId mermaidCode (sections st)
     | None => sections st
     end)
    None
    (settle_one sectionId (inflight st)).

Inductive event :=
| Click (sectionId : jsstring)
| Settle (sectionId : jsstring) (result : option jsstring).

Definition dispatch (st : State) (e : event) : State :=
  match e with
  | Click sid => click st sid
  | Settle sid r => settle st sid r
  end.

Definition run (st : State) (es : list event) : State :=
  fold_left dispatch es st.

(** [handleParse] on a fresh component. *)
Definition parsed (clock : nat -> N) (rawMarkdown : jsstring) : State :=
  mkState (splitMarkdownIntoSections clock rawMarkdown) None [].

End Orchestrator.

Import Orchestrator.

(* ================================================================== *)
(** ** Re-emission of sections as markdown *)
(* ================================================================== *)

Module Reemit.

(** Following the words of the specification (the concatenation of all
    returned sections' headings and bodies in order, each heading re-emitted
    as a heading line): a section becomes its heading line, then its body on
    the lines below.  This is no function of the source. *)
Definition emit_section (s : Section) : jsstring :=
  lit "# " ++ heading s ++ [LF] ++ body s ++ [LF].

Definition emit (l : list Section) : jsstring :=
  List.concat (map emit_section l).

(** A line is a heading line when the regular expression matches it. *)
Definition is_heading_line (line : jsstring) : bool :=
  match headingMatch line with
  | Some _ => true
  | None => false
  end.

(** A carriage return directly before a line feed. *)
Fixpoint has_crlf (s : jsstring) : bool :=
  match s with
  | [] => false
  | c :: s' =>
      match s' with
      | d :: _ => (N.eqb c CR && N.eqb d LF) || has_crlf s'
      | [] => false
      end
  end.

(** A section whose re-emission reads back as itself: its heading is not
    empty, no line of its body is a heading line, and its body holds no
    carriage return directly before a line feed. *)
Definition reads_back (s : Section) : bool :=
  negb (str_eqb (heading s) [])
  && forallb (fun l => negb (is_heading_line l)) (split_lines (body s))
  && negb (has_crlf (body s)).

End Reemit.

Import Reemit.

(* ================================================================== *)
(** ** Notions the statements use *)
(* ================================================================== *)

Module Notions.

(** The last code unit satisfies [f]. *)
Fixpoint ends_with (f : N -> bool) (s : jsstring) : bool :=
  match s with
  | [] => false
  | c :: s' =>
      match s' with
      | [] => f c
      | _ => ends_with f s'
      end
  end.

(** No code unit is a line terminator. *)
Definition no_terminator (s : jsstring) : bool :=
  forallb (fun c => negb (isLineTerminator c)) s.

(** The code unit is a carriage return. *)
Definition is_CR (c : N) : bool := N.eqb c CR.

(** Blank code units that [.] of the regular expression matches. *)
Definition inline_space (c : N) : bool :=
  isWhiteSpace c && negb (isLineTerminator c).

(** The lines of a text, each closed by a line feed, in one string. *)
Definition unlines (ls : list jsstring) : jsstring :=
  List.concat (map (fun l => l ++ [LF]) ls).

(** A chunk ends at a line boundary when it is empty or ends with a line
    feed. *)
Definition line_aligned (chunk : jsstring) : bool :=
  match rev chunk with
  | [] => true
  | c :: _ => N.eqb c LF
  end.

(** The edges that [forEach] adds, one by one: edge [i] goes from the root
    to node [B(i+1)], which carries label [i]. *)
Definition edge_text (arrow : jsstring) (p : nat * jsstring) : jsstring :=
  [LF] ++ lit "    A " ++ arrow ++ lit " B" ++ dec (N.of_nat (fst p))
  ++ lit "[" ++ snd p ++ lit "]".

(** What every section that the sectionizer returns satisfies. *)
Definition heading_wf (s : Section) : Prop :=
  trim (heading s) = heading s /\ no_terminator (heading s) = true.

Definition section_wf (s : Section) : Prop :=
  heading_wf s /\ trim (body s) = body s.

Definition state_wf (st : loop_state) : Prop :=
  Forall section_wf (fst st)
  /\ forall c, snd st = Some c -> heading_wf c.

(** The content of the loop's state: identifiers apart. *)
Definition state_content (st : loop_state)
  : list (jsstring * jsstring) * option (jsstring * jsstring) :=
  (map content (fst st), option_map content (snd st)).




(** The runtime on numbers whose lexeme is a decimal integer that a double
    holds exactly: such a number is truthy when a digit of it is not zero,
    and prints as it is written (zero without its sign). *)
Definition integer_truthy (lexeme : jsstring) : bool :=
  existsb (fun c => is_digit c && negb (N.eqb c 48)) lexeme.

Definition integer_toString (lexeme : jsstring) : jsstring :=
  if integer_truthy lexeme then lexeme else lit "0".

End Notions.

Import Notions.

(* ================================================================== *)
(** ** Inputs of the examples *)
(* ================================================================== *)

Module Examples.

(** The document [# A / # B] once parsed, and the identifiers of its two
    sections. *)
Definition two_sections : State :=
  parsed (fun _ => 7%N) (lit "# A" ++ [LF] ++ lit "# B").

Definition id_A : jsstring := lit "0-7".
Definition id_B : jsstring := lit "1-7".

(** A literal between double quotes. *)
Definition quoted (s : string) : jsstring := dq ++ lit s ++ dq.

(** A stream line that carries the text delta [fragment]: the marker, then
    an object with the members [type] and [textDelta]. *)
Definition delta_line (fragment : string) : jsstring :=
  lit "0:{" ++ quoted "type" ++ lit ":" ++ quoted "text-delta" ++ lit ","
  ++ quoted "textDelta" ++ lit ":" ++ quoted fragment ++ lit "}".

(** The chunks of the specification's example: two lines, the second one
    cut after its opening brace. *)
Definition example_chunks : list jsstring :=
  [ delta_line "Hi" ++ [LF] ++ lit "0:{";
    skipn 3 (delta_line " there") ++ [LF] ].

(** The same two lines, one per chunk. *)
Definition aligned_chunks : list jsstring :=
  [ delta_line "Hi" ++ [LF]; delta_line " there" ++ [LF] ].

(** A body of six sentences, four of them long enough to become steps. *)
Definition workflow_body : jsstring :=
  lit "The workflow has parts. At first we collect all the inputs! Is it then assembled for the user? A sentence of no keyword at all here. short. And a fifth sentence that is long enough.".

(** Text before the first heading, and two headings. *)
Definition sample_markdown : jsstring :=
  lit "intro text" ++ [LF] ++ lit "# H1" ++ [CR; LF] ++ lit "body"
  ++ [LF] ++ lit "## H2" ++ [LF].

(** The heading A, and below it an indented line that looks like a
    heading. *)
Definition indented_heading : jsstring :=
  lit "# A" ++ [LF] ++ lit "  # B".

End Examples.

Import Examples.

(* ================================================================== *)
(** ** Section store: the handlers of the editor *)
(* ================================================================== *)

Module Store.

(** The state of [MarkdownAnimator] that the editor reads and writes. *)
Record Editor := mkEditor {
  ed_sections : list Section;
  editingSectionId : option jsstring;
  tempCode : jsstring
}.

(** [handleOpenEditor]: [sec?.code ?? defaultBlankSnippet] *)
Definition handleOpenEditor (st : Editor) (sectionId : jsstring) : Editor :=
  mkEditor (ed_sections st) (Some sectionId)
    (match find_section sectionId (ed_sections st) with
     | Some sec =>
         match code sec with
         | Some c => c
         | None => defaultBlankSnippet
         end
     | None => defaultBlankSnippet
     end).

(** [onChange={setTempCode}] of the editor's text area. *)
Definition setTempCode (st : Editor) (v : jsstring) : Editor :=
  mkEditor (ed_sections st) (editingSectionId st) v.

(** [prev.map(s => s.id === editingSectionId ? { ...s, code: tempCode } : s)] *)
Definition patch_code (sectionId tempCode : jsstring) (l : list Section)
  : list Section :=
  map (fun s =>
         if str_eqb (id s) sectionId
         then mkSection (id s) (heading s) (body s) (Some tempCode) (mermaidCode s)
         else s) l.

(** [handleSaveCode]: [if (!editingSectionId) return] leaves on [null] and
    on the empty string. *)
Definition handleSaveCode (st : Editor) : Editor :=
  match editingSectionId st with
  | None => st
  | Some [] => st
  | Some sectionId =>
      mkEditor (patch_code sectionId (tempCode st) (ed_sections st)) None
               (tempCode st)
  end.

(** [onClose={() => setEditingSectionId(null)}] *)
Definition handleClose (st : Editor) : Editor :=
  mkEditor (ed_sections st) None (tempCode st).

(** [handleParse]: [setSections(splitMarkdownIntoSections(rawMarkdown))] *)
Definition handleParse (clock : nat -> N) (rawMarkdown : jsstring)
  (st : Editor) : Editor :=
  mkEditor (splitMarkdownIntoSections clock rawMarkdown) (editingSectionId st)
           (tempCode st).

(** The document that [UnifiedCanvas] shows for a section. *)
Definition preview (s : Section) : jsstring :=
  srcDoc (mermaidCode s) (code s).

End Store.

Import Store.

(* ================================================================== *)
(** ** Generation without a service: the synchronous revisions *)
(* ================================================================== *)

Module Generation.

(** [const testMermaidCode] of the revision that draws a fixed diagram
    around the heading. *)
Definition testMermaidCode (heading : jsstring) : jsstring :=
  lit "flowchart TD
    A["
  ++ heading
  ++ lit "] --> B[Key Point 1]
    A --> C[Key Point 2]
    A --> D[Key Point 3]
    B --> E[Implementation]
    C --> E
    D --> E
    E --> F[Result]
    
    style A fill:#e1f5fe
    style F fill:#c8e6c9".

(** [generateMermaidDiagram] of a revision that computes the diagram
    itself, [gen] being what it computes from the section: the lookup and
    the early return; then, with no [await] in between,
    [setGeneratingMermaid(sectionId)], [setSections] and, in the [finally],
    [setGeneratingMermaid(null)]. *)
Definition generate_sync (gen : Section -> jsstring) (st : State)
  (sectionId : jsstring) : State :=
  match find_section sectionId (sections st) with
  | None => st
  | Some section =>
      mkState (patch sectionId (gen section) (sections st)) None (inflight st)
  end.

(** The revision with the fixed diagram. *)
Definition generateMermaidDiagram_test : State -> jsstring -> State :=
  generate_sync (fun section => testMermaidCode (heading section)).

(** [<li class=...>${point}</li>] *)
Definition list_item (point : jsstring) : jsstring :=
  lit "<li class=" ++ dq ++ lit "slide-up" ++ dq ++ lit ">" ++ point
  ++ lit "</li>".

(** The template literal [animationCode] of [generateAnimation], around
    its interpolations. *)
Definition animationCode (heading bgGradient cardColor : jsstring)
  (keyPoints : list jsstring) : jsstring :=
  (lit "<!doctype html>
<html>
  <head>
    <meta charset=" ++ dq ++ lit "utf-8" ++ dq ++ lit " />
    <meta name=" ++ dq ++ lit "viewport" ++ dq ++ lit " content=" ++ dq ++ lit "width=device-width, initial-scale=1" ++ dq ++ lit " />
    <title>")
  ++ heading
  ++ (lit "</title>
    <style>
      * { box-sizing: border-box; }
      html, body { margin: 0; height: 100%; background: ")
  ++ bgGradient
  ++ (lit "; font-family: system-ui, -apple-system, sans-serif; }
      .container { display: flex; flex-direction: column; align-items: center; justify-content: center; height: 100vh; color: white; padding: 20px; }
      .title { font-size: 2.5rem; font-weight: bold; margin-bottom: 2rem; text-align: center; text-shadow: 2px 2px 4px rgba(0,0,0,0.3); }
      .card { background: ")
  ++ cardColor
  ++ (lit "; backdrop-filter: blur(10px); border-radius: 20px; padding: 2rem; margin: 1rem; border: 1px solid rgba(255,255,255,0.3); box-shadow: 0 8px 32px rgba(0,0,0,0.1); }
      .key-points { list-style: none; padding: 0; }
      .key-points li { margin: 1rem 0; padding: 0.5rem; background: rgba(255,255,255,0.1); border-radius: 10px; border-left: 4px solid rgba(255,255,255,0.5); }
      .floating { animation: float 4s ease-in-out infinite; }
      .fade-in { animation: fadeIn 2s ease-out; }
      .slide-up { animation: slideUp 1.5s ease-out; }
      @keyframes float { 0%, 100% { transform: translateY(0px); } 50% { transform: translateY(-15px); } }
      @keyframes fadeIn { from { opacity: 0; } to { opacity: 1; } }
      @keyframes slideUp { from { opacity: 0; transform: translateY(30px); } to { opacity: 1; transform: translateY(0); } }
    </style>
  </head>
  <body>
    <div class=" ++ dq ++ lit "container" ++ dq ++ lit ">
      <h1 class=" ++ dq ++ lit "title floating" ++ dq ++ lit ">")
  ++ heading
  ++ (lit "</h1>
      <div class=" ++ dq ++ lit "card fade-in" ++ dq ++ lit ">
        <h3 style=" ++ dq ++ lit "margin-top: 0; color: rgba(255,255,255,0.9);" ++ dq ++ lit ">Key Insights</h3>
        <ul class=" ++ dq ++ lit "key-points" ++ dq ++ lit ">
          ")
  ++ List.concat (map list_item keyPoints)
  ++ (lit "
        </ul>
      </div>
    </div>
    <script>
      // Smooth interactive effects without popping
      document.addEventListener('mousemove', (e) => {
        const cards = document.querySelectorAll('.card');
        cards.forEach(card => {
          const rect = card.getBoundingClientRect();
          const x = e.clientX - rect.left - rect.width / 2;
          const y = e.clientY - rect.top - rect.height / 2;
          const rotateX = (y / rect.height - 0.5) * 10;
          const rotateY = (x / rect.width - 0.5) * -10;
          card.style.transform = `perspective(1000px) rotateX(${rotateX}deg) rotateY(${rotateY}deg) translateZ(10px)`;
        });
      });
      
      // Reset transform on mouse leave
      document.addEventListener('mouseleave', () => {
        const cards = document.querySelectorAll('.card');
        cards.forEach(card => {
          card.style.transform = 'perspective(1000px) rotateX(0deg) rotateY(0deg) translateZ(0px)';
        });
      });
    </script>
  </body>
</html>").

(** The [map] callback of [keyPoints]. *)
Definition key_point (s : jsstring) : jsstring :=
  let clean := trim s in
  if Nat.ltb 50 (List.length clean) then substring0 50 clean ++ lit "..."
  else clean.

(** [sentences.slice(0, 3).map(...)] *)
Definition keyPoints (body : jsstring) : list jsstring :=
  map key_point (firstn 3 (sentences 20 body)).

Section Runtime.

Variable toLowerCase : jsstring -> jsstring.

(** The revision with the keyword driven diagram. *)
Definition generateMermaidDiagram_keyword : State -> jsstring -> State :=
  generate_sync
    (fun section => synthesize toLowerCase (heading section) (body section)).

(** [bgGradient] and [cardColor], by the theme of the content. *)
Definition theme_colors (body : jsstring) : jsstring * jsstring :=
  let content := toLowerCase body in
  if has content "workflow" || has content "process" then
    (lit "linear-gradient(135deg, #4facfe 0%, #00f2fe 100%)",
     lit "rgba(79, 172, 254, 0.2)")
  else if has content "system" || has content "architecture" then
    (lit "linear-gradient(135deg, #fa709a 0%, #fee140 100%)",
     lit "rgba(250, 112, 154, 0.2)")
  else if has content "optimization" || has content "performance" then
    (lit "linear-gradient(135deg, #a8edea 0%, #fed6e3 100%)",
     lit "rgba(168, 237, 234, 0.2)")
  else if has content "analysis" || has content "research" then
    (lit "linear-gradient(135deg, #ffecd2 0%, #fcb69f 100%)",
     lit "rgba(255, 236, 210, 0.2)")
  else
    (lit "linear-gradient(135deg, #667eea 0%, #764ba2 100%)",
     lit "rgba(255,255,255,0.1)").

(** The document that [generateAnimation] builds for a section. *)
Definition animation_of (section : Section) : jsstring :=
  animationCode (heading section)
    (fst (theme_colors (body section))) (snd (theme_colors (body section)))
    (keyPoints (body section)).

(** [generateAnimation]: as [generateMermaidDiagram], with
    [{ ...s, code: animationCode }]. *)
Definition generateAnimation (st : State) (sectionId : jsstring) : State :=
  match find_section sectionId (sections st) with
  | None => st
  | Some section =>
      mkState (patch_code sectionId (animation_of section) (sections st))
              None (inflight st)
  end.

End Runtime.

End Generation.

Import Generation.

(* ================================================================== *)
(** ** Further notions the statements use *)
(* ================================================================== *)

Module Outline.

(** The heading that a line opens, if it is a heading line. *)
Definition opened_heading (line : jsstring) : list jsstring :=
  match headingMatch line with
  | Some g => [trim g]
  | None => []
  end.

(** The headings that the lines of a text open, in order; a first line
    that is no heading line opens the implicit section. *)
Definition outline (lines : list jsstring) : list jsstring :=
  match lines with
  | [] => []
  | first :: _ =>
      (if is_heading_line first then [] else [lit "Introduction"])
      ++ flat_map opened_heading lines
  end.

(** The text with a carriage return put before every line feed. *)
Definition with_crlf (s : jsstring) : jsstring :=
  flat_map (fun c => if N.eqb c LF then [CR; LF] else [c]) s.

(** A section that carries no generated or custom content. *)
Definition blank (s : Section) : bool :=
  match code s, mermaidCode s with
  | None, None => true
  | _, _ => false
  end.

End Outline.

Import Outline.

(* ================================================================== *)
(** * Properties *)
(* ================================================================== *)

(** ** Strings *)

Lemma str_eqb_refl : forall s, str_eqb s s = true.
Proof.
  induction s as [|c s IH]; simpl; [reflexivity|].
  now rewrite N.eqb_refl, IH.
Qed.

Lemma str_eqb_eq : forall a b, str_eqb a b = true <-> a = b.
Proof.
  induction a as [|x a IH]; destruct b as [|y b]; simpl; split; intro H;
    try reflexivity; try discriminate.
  - apply andb_true_iff in H as [Hx Hs].
    apply N.eqb_eq in Hx. apply IH in Hs. now subst.
  - injection H as -> ->. now rewrite N.eqb_refl, str_eqb_refl.
Qed.

Lemma isLineTerminator_isWhiteSpace :
  forall c, isLineTerminator c = true -> isWhiteSpace c = true.
Proof.
  intros c H. unfold isWhiteSpace. rewrite H.
  now rewrite !orb_true_r.
Qed.

(** ** Sectionizer *)

(** A line free of line terminators is the only line of its text. *)
Lemma split_lines_single :
  forall s, forallb (fun c => negb (isLineTerminator c)) s = true ->
            split_lines s = [s].
Proof.
  induction s as [|c s IH]; intro H; [reflexivity|].
  simpl in H. apply andb_true_iff in H as [Hc Hs].
  specialize (IH Hs).
  assert (Hlf : N.eqb c LF = false).
  { unfold isLineTerminator in Hc. unfold LF.
    destruct (N.eqb c 10); [discriminate|reflexivity]. }
  assert (Hcr : N.eqb c CR = false).
  { unfold isLineTerminator in Hc. unfold CR.
    destruct (N.eqb c 10), (N.eqb c 13); try discriminate; reflexivity. }
  cbn [split_lines]. rewrite Hlf, Hcr. destruct s as [|d s']; [reflexivity|].
  cbn [andb]. rewrite IH. reflexivity.
Qed.

Lemma spaces_then_text_blank :
  forall w, forallb inline_space w = true -> 2 <= List.length w ->
            spaces_then_text w = Some [last w 0%N].
Proof.
  induction w as [|c w IH]; intros Hall Hlen; [simpl in Hlen; lia|].
  simpl in Hall. apply andb_true_iff in Hall as [Hc Hw].
  unfold inline_space in Hc. apply andb_true_iff in Hc as [Hws _].
  destruct w as [|d w']; [simpl in Hlen; lia|].
  destruct w' as [|e w''].
  - (* two blanks: the second one is the text *)
    simpl in Hw. rewrite andb_true_r in Hw.
    unfold inline_space in Hw. apply andb_true_iff in Hw as [Hdw Hdl].
    cbn [spaces_then_text]. rewrite Hws, Hdw.
    cbn [dot_plus_end forallb]. rewrite Hdl. reflexivity.
  - assert (H2 : 2 <= List.length (d :: e :: w'')) by (simpl; lia).
    specialize (IH Hw H2).
    change (spaces_then_text (c :: d :: e :: w''))
      with (if isWhiteSpace c then
              match spaces_then_text (d :: e :: w'') with
              | Some g => Some g
              | None => if dot_plus_end (d :: e :: w'') then Some (d :: e :: w'') else None
              end
            else None).
    rewrite Hws, IH. reflexivity.
Qed.

Lemma hashes_then_run :
  forall k n w,
    1 <= k <= n ->
    hashes_then 1 w = None ->
    (forall m, hashes_then m w = None) ->
    hashes_then n (repeat 35%N k ++ w) = spaces_then_text w.
Proof.
  induction k as [|k IH]; intros n w Hk H1 Hw; [lia|].
  destruct n as [|n]; [lia|].
  cbn [repeat app hashes_then]. rewrite N.eqb_refl.
  destruct k as [|k'].
  - cbn [repeat app]. rewrite Hw. reflexivity.
  - rewrite IH by (auto; lia).
    destruct (spaces_then_text w); reflexivity.
Qed.

Lemma hashes_then_not_hash :
  forall c w m, N.eqb c 35 = false -> hashes_then m (c :: w) = None.
Proof.
  intros c w [|m] H; simpl; [reflexivity|]. now rewrite H.
Qed.

Lemma inline_space_not_hash : forall c, inline_space c = true -> N.eqb c 35 = false.
Proof.
  intros c H. destruct (N.eqb_spec c 35) as [->|]; [|reflexivity].
  vm_compute in H. discriminate.
Qed.

Lemma trim_blank : forall c, isWhiteSpace c = true -> trim [c] = [].
Proof.
  intros c H. unfold trim, trimStart. simpl. now rewrite H.
Qed.

(** C10. A line made of one to six hashes and then of two or more blank
    code units (white space that is no line terminator, such as two spaces)
    matches the heading expression: the white-space group gives its last
    code unit back to the text group.  Segmenting such a line yields one
    section whose heading, once trimmed, is the empty string: a heading need
    not be non-empty. *)
Theorem blank_heading_line :
  forall (clock : nat -> N) (k : nat) (w : jsstring),
    1 <= k <= 6 ->
    forallb inline_space w = true ->
    2 <= List.length w ->
    headingMatch (repeat 35%N k ++ w) = Some [last w 0%N]
    /\ map content (splitMarkdownIntoSections clock (repeat 35%N k ++ w))
       = [([], [])].
Proof.
  intros clock k w Hk Hall Hlen.
  assert (Hm : headingMatch (repeat 35%N k ++ w) = Some [last w 0%N]).
  { unfold headingMatch.
    destruct w as [|c w']; [simpl in Hlen; lia|].
    assert (Hc : N.eqb c 35 = false).
    { apply inline_space_not_hash. simpl in Hall.
      now apply andb_true_iff in Hall as [Hc _]. }
    rewrite hashes_then_run.
    - now apply spaces_then_text_blank.
    - lia.
    - now apply hashes_then_not_hash.
    - intro m. now apply hashes_then_not_hash. }
  split; [exact Hm|].
  unfold splitMarkdownIntoSections.
  rewrite split_lines_single.
  - cbn [loop]. unfold Sectionizer.step. rewrite Hm.
    unfold pushCurrent. cbn [snd fst app map content heading body].
    assert (Hl : isWhiteSpace (last w 0%N) = true).
    { assert (Hin : In (last w 0%N) w).
      { destruct w as [|c w']; [simpl in Hlen; lia|].
        destruct (@exists_last _ (c :: w')) as [l' [a ->]]; [discriminate|].
        rewrite last_last. apply in_or_app. right. now left. }
      rewrite forallb_forall in Hall. specialize (Hall _ Hin).
      unfold inline_space in Hall. now apply andb_true_iff in Hall as [H _]. }
    rewrite (trim_blank _ Hl). reflexivity.
  - rewrite forallb_app. apply andb_true_iff. split.
    + clear. induction k; simpl; auto.
    + rewrite forallb_forall in Hall. apply forallb_forall.
      intros x Hx. specialize (Hall _ Hx). unfold inline_space in Hall.
      now apply andb_true_iff in Hall as [_ H].
Qed.

Lemma blank_heading_line_witness :
  headingMatch (lit "#  ") = Some (lit " ")
  /\ map content (splitMarkdownIntoSections (fun _ => 0%N) (lit "#  "))
     = [([], [])].
Proof.
  apply (@blank_heading_line (fun _ => 0%N) 1 (lit "  ")).
  - lia.
  - reflexivity.
  - simpl. lia.
Defined.

(** C4, as the code has it. Segmenting the empty string yields exactly one
    section: the implicit one, headed Introduction, with an empty body.  The
    split of the empty string is one empty line, and a line before the first
    heading opens the implicit section. *)
Theorem segment_empty :
  forall clock : nat -> N,
    splitMarkdownIntoSections clock []
    = [mkSection (lit "0-" ++ dec (clock 0)) (lit "Introduction") [] None None].
Proof.
  intro clock. reflexivity.
Qed.

(** C4, refuted as stated: the result for the empty string is not the empty
    sequence. *)
Lemma segment_empty_not_nil :
  List.length (splitMarkdownIntoSections (fun _ => 0%N) []) = 1
  /\ splitMarkdownIntoSections (fun _ => 0%N) [] <> [].
Proof.
  split; [reflexivity|discriminate].
Qed.

(** ** Preview renderer *)

(** C7. Rendering precedence of [UnifiedCanvas], where a variant is present
    when its string is defined and not empty (the test [if (x)] of the
    code).  With diagram markup present the document is the fixed template
    around the markup, whatever the custom content is; with only custom
    content present the document is that content, verbatim; with neither,
    the document is the fixed placeholder.  An empty string counts as
    absent.  The cases cover every pair of fields, so exactly one variant is
    active. *)
Theorem render_precedence :
  forall (c : N) (m : jsstring) (c' : N) (a' : jsstring) (a : option jsstring),
    srcDoc (Some (c :: m)) a = mermaid_head ++ (c :: m) ++ mermaid_tail
    /\ srcDoc (Some (c :: m)) a = srcDoc (Some (c :: m)) None
    /\ srcDoc None (Some (c' :: a')) = c' :: a'
    /\ srcDoc (Some []) (Some (c' :: a')) = c' :: a'
    /\ srcDoc None None = defaultBlankSnippet
    /\ srcDoc None (Some []) = defaultBlankSnippet
    /\ srcDoc (Some []) None = defaultBlankSnippet
    /\ srcDoc (Some []) (Some []) = defaultBlankSnippet.
Proof.
  intros. unfold srcDoc. cbn [present text]. repeat split.
Qed.

(** C3, as the code has it. Every canvas renders its document in a frame
    whose sandbox tokens are allow-scripts and allow-same-origin, whatever
    the content: scripts of the embedded document run, and the document
    keeps the origin of the hosting page, so that access to the state of the
    hosting page is not denied. *)
Theorem canvas_sandbox :
  forall mermaidCode animationCode code : option jsstring,
    tokens (sandbox (UnifiedCanvas mermaidCode animationCode))
    = [lit "allow-scripts"; lit "allow-same-origin"]
    /\ scripts_allowed (UnifiedCanvas mermaidCode animationCode) = true
    /\ host_state_denied (UnifiedCanvas mermaidCode animationCode) = false
    /\ scripts_allowed (AnimationCanvas code) = true
    /\ host_state_denied (AnimationCanvas code) = false.
Proof.
  intros. repeat split; vm_compute; reflexivity.
Qed.

(** C3, refuted as stated: for user-pasted content the frame does not deny
    access to the state of the hosting page. *)
Lemma canvas_not_isolated :
  host_state_denied (UnifiedCanvas None (Some (lit "<script></script>")))
  = false
  /\ iframe_srcDoc (UnifiedCanvas None (Some (lit "<script></script>")))
     = lit "<script></script>".
Proof.
  split; vm_compute; reflexivity.
Qed.

(** ** Generation orchestrator *)

Lemma click_sections :
  forall st sid, sections (click st sid) = sections st.
Proof.
  intros st sid. unfold click, start.
  destruct (disabled st sid); [reflexivity|].
  destruct (find_section sid (sections st)); reflexivity.
Qed.

(** C1, as the code has it. The slot [generatingMermaid] holds at most one
    section identifier, and it guards the button of that section only.
    No trigger, accepted or not, changes the sections.  While the slot holds
    the identifier of a section, a trigger for that same section is a no-op,
    and so is a trigger for a section that does not exist.  A trigger for a
    section that exists is accepted whenever the slot is free or holds
    another identifier: it overwrites the slot and starts one more attempt
    next to those in flight.  The content is written when an attempt
    settles: with a result, the diagram markup of the sections with that
    identifier becomes the result and every other field stays, without a
    result the sections stay; either way the slot is cleared, whatever it
    held, and one attempt for that section leaves the attempts in flight. *)
Theorem generate_guard :
  forall (st : State) (sid other : jsstring),
    sections (click st other) = sections st
    /\ (generatingMermaid st = Some sid -> click st sid = st)
    /\ (find_section other (sections st) = None -> click st other = st)
    /\ (generatingMermaid st = None ->
        forall s, find_section other (sections st) = Some s ->
        click st other
        = mkState (sections st) (Some other) (inflight st ++ [other]))
    /\ (generatingMermaid st = Some sid ->
        str_eqb sid other = false ->
        forall s, find_section other (sections st) = Some s ->
        click st other
        = mkState (sections st) (Some other) (inflight st ++ [other]))
    /\ (forall mermaidCode0 : jsstring,
          map mermaidCode (sections (settle st other (Some mermaidCode0)))
          = map (fun s => if str_eqb (id s) other then Some mermaidCode0
                          else mermaidCode s)
                (sections st)
          /\ map code (sections (settle st other (Some mermaidCode0)))
             = map code (sections st)
          /\ map id (sections (settle st other (Some mermaidCode0)))
             = map id (sections st)
          /\ map content (sections (settle st other (Some mermaidCode0)))
             = map content (sections st))
    /\ sections (settle st other None) = sections st
    /\ (forall result : option jsstring,
          generatingMermaid (settle st other result) = None
          /\ inflight (settle st other result)
             = settle_one other (inflight st)).
Proof.
  intros st sid other.
  split; [apply click_sections|].
  split.
  { intro Hslot. unfold click, disabled. now rewrite Hslot, str_eqb_refl. }
  split.
  { intro Hnone. unfold click, start. rewrite Hnone.
    now destruct (disabled st other). }
  split.
  { intros Hslot s Hfind. unfold click, disabled. rewrite Hslot.
    unfold start. now rewrite Hfind. }
  split.
  { intros Hslot Hne s Hfind. unfold click, disabled. rewrite Hslot, Hne.
    unfold start. now rewrite Hfind. }
  split.
  { intro m. cbn [settle sections]. unfold patch. rewrite !map_map.
    repeat split; apply map_ext; intro s;
      now destruct (str_eqb (id s) other). }
  split; [reflexivity|].
  intro result. split; reflexivity.
Qed.

Lemma generate_guard_witness :
  click (click two_sections id_A) id_A = click two_sections id_A
  /\ click (click two_sections id_A) id_B
     = mkState (sections (click two_sections id_A)) (Some id_B)
         (inflight (click two_sections id_A) ++ [id_B])
  /\ click two_sections id_A
     = mkState (sections two_sections) (Some id_A)
         (inflight two_sections ++ [id_A])
  /\ click two_sections (lit "2-7") = two_sections.
Proof.
  destruct (generate_guard (click two_sections id_A) id_A id_B)
    as [_ [Hsame [_ [_ [Hother _]]]]].
  destruct (generate_guard two_sections id_B id_A)
    as [_ [_ [_ [Hfree _]]]].
  destruct (generate_guard two_sections id_A (lit "2-7"))
    as [_ [_ [Hnone _]]].
  split; [apply Hsame; reflexivity|].
  split; [apply (Hother eq_refl eq_refl
                   (mkSection id_B (lit "B") [] None None)); reflexivity|].
  split; [apply (Hfree eq_refl
                   (mkSection id_A (lit "A") [] None None)); reflexivity|].
  apply Hnone. reflexivity.
Defined.

(** C1, refuted as stated: with a generation for section A in flight, a
    trigger for section B is not rejected.  Two attempts are then in flight,
    and when the second one settles, the content of section B changes while
    the first attempt is still in flight. *)
Lemma second_generation_accepted :
  inflight (run two_sections [Click id_A]) = [id_A]
  /\ inflight (run two_sections [Click id_A; Click id_B]) = [id_A; id_B]
  /\ generatingMermaid (run two_sections [Click id_A; Click id_B]) = Some id_B
  /\ map mermaidCode
       (sections (run two_sections
                    [Click id_A; Click id_B; Settle id_B (Some (lit "graph TD"))]))
     = [None; Some (lit "graph TD")]
  /\ inflight (run two_sections
                 [Click id_A; Click id_B; Settle id_B (Some (lit "graph TD"))])
     = [id_A].
Proof.
  repeat split; vm_compute; reflexivity.
Qed.

(** ** Stream decoder *)

Lemma cons_head_app :
  forall c l m, l <> [] -> cons_head c (l ++ m) = cons_head c l ++ m.
Proof.
  intros c [|x l] m H; [contradiction|reflexivity].
Qed.

Lemma split_nl_not_nil : forall s, split_nl s <> [].
Proof.
  destruct s as [|c s]; cbn [split_nl]; [discriminate|].
  destruct (N.eqb c LF); [discriminate|].
  destruct (split_nl s); discriminate.
Qed.

Lemma split_nl_app :
  forall x y, split_nl (x ++ LF :: y) = split_nl x ++ split_nl y.
Proof.
  induction x as [|c x IH]; intro y.
  - cbn [app split_nl]. now rewrite N.eqb_refl.
  - cbn [app split_nl]. rewrite IH. destruct (N.eqb c LF); [reflexivity|].
    apply cons_head_app, split_nl_not_nil.
Qed.

Section DecoderFacts.

Variable JSON_parse : jsstring -> option json.
Variable number_truthy : jsstring -> bool.
Variable number_toString : jsstring -> jsstring.

Local Abbreviation handle_line :=
  (handle_line JSON_parse number_truthy number_toString).
Local Abbreviation handle_chunk :=
  (handle_chunk JSON_parse number_truthy number_toString).
Local Abbreviation decode := (decode JSON_parse number_truthy number_toString).
Local Abbreviation delta := (delta JSON_parse number_truthy number_toString).

(** A line adds its delta at the end of the payload, and nothing else. *)
Lemma handle_line_delta :
  forall acc line, handle_line acc line = acc ++ delta line.
Proof.
  intros acc line. unfold Decoder.delta, Decoder.handle_line, try_block.
  destruct (startsWith (lit "0:") line); [|now rewrite app_nil_r].
  destruct (JSON_parse (slice 2 line)) as [data|]; [|now rewrite app_nil_r].
  destruct (get_property data (lit "type")) as [ty|e]; [|now rewrite app_nil_r].
  destruct (strict_eq_string ty (lit "text-delta")); [|now rewrite app_nil_r].
  destruct (get_property data (lit "textDelta")) as [[td|]|e];
    try now rewrite app_nil_r.
  destruct (truthy number_truthy (Some td)); [|now rewrite app_nil_r].
  destruct (toString number_toString td); [reflexivity|now rewrite app_nil_r].
Qed.

Lemma fold_lines_deltas :
  forall lines acc,
    fold_left handle_line lines acc = acc ++ List.concat (map delta lines).
Proof.
  induction lines as [|l lines IH]; intro acc; cbn [fold_left map List.concat].
  - now rewrite app_nil_r.
  - rewrite IH, handle_line_delta. now rewrite app_assoc.
Qed.

Lemma fold_chunks_deltas :
  forall chunks acc,
    fold_left handle_chunk chunks acc
    = acc ++ List.concat (map delta (flat_map split_nl chunks)).
Proof.
  induction chunks as [|c chunks IH]; intro acc; cbn [fold_left flat_map].
  - now rewrite app_nil_r.
  - rewrite IH. unfold Decoder.handle_chunk. rewrite fold_lines_deltas.
    rewrite map_app, concat_app. now rewrite app_assoc.
Qed.

(** The decoded payload is the concatenation, in arrival order, of the
    deltas of the lines of each chunk taken on its own. *)
Lemma decode_deltas :
  forall chunks,
    decode chunks = List.concat (map delta (flat_map split_nl chunks)).
Proof.
  intro chunks. unfold Decoder.decode. now rewrite fold_chunks_deltas.
Qed.

Lemma delta_unmarked :
  forall line, startsWith (lit "0:") line = false -> delta line = [].
Proof.
  intros line H. unfold Decoder.delta, Decoder.handle_line. now rewrite H.
Qed.

Lemma delta_unparsed :
  forall line, JSON_parse (slice 2 line) = None -> delta line = [].
Proof.
  intros line H. unfold Decoder.delta, Decoder.handle_line, try_block.
  rewrite H. now destruct (startsWith (lit "0:") line).
Qed.

Lemma deltas_without :
  forall line lines,
    delta line = [] ->
    List.concat (map delta lines)
    = List.concat
        (map delta (filter (fun l => negb (str_eqb l line)) lines)).
Proof.
  intros line lines H.
  induction lines as [|l lines IH]; [reflexivity|].
  cbn [map List.concat filter]. destruct (str_eqb l line) eqn:E; cbn [negb].
  - apply str_eqb_eq in E. subst l. now rewrite H.
  - cbn [map List.concat]. now rewrite IH.
Qed.

(** C8. A line that does not begin with the marker, or whose remainder
    [JSON.parse] refuses, is dropped: handling it leaves the payload as it
    was (the exception it may raise is caught by the empty catch block), and
    the payload decoded from any stream is the one decoded from the lines of
    that stream other than this line.  [decode] is a total function: it
    returns a payload for every stream. *)
Theorem malformed_line_dropped :
  forall (chunks : list jsstring) (line : jsstring),
    startsWith (lit "0:") line = false \/ JSON_parse (slice 2 line) = None ->
    (forall payload, handle_line payload line = payload)
    /\ decode chunks
       = List.concat
           (map delta
              (filter (fun l => negb (str_eqb l line))
                 (flat_map split_nl chunks))).
Proof.
  intros chunks line H.
  assert (Hd : delta line = []).
  { destruct H; [now apply delta_unmarked|now apply delta_unparsed]. }
  split.
  - intro payload. now rewrite handle_line_delta, Hd, app_nil_r.
  - rewrite decode_deltas. now apply deltas_without.
Qed.

Lemma line_aligned_inv :
  forall chunk, line_aligned chunk = true ->
                chunk = [] \/ exists c', chunk = c' ++ [LF].
Proof.
  intros chunk H. unfold line_aligned in H.
  destruct (rev chunk) as [|c r] eqn:E.
  - left. apply (f_equal (@rev N)) in E. now rewrite rev_involutive in E.
  - right. exists (rev r). apply N.eqb_eq in H. subst c.
    apply (f_equal (@rev N)) in E. rewrite rev_involutive in E.
    exact E.
Qed.

Lemma delta_empty_line : delta [] = [].
Proof. reflexivity. Qed.

Lemma deltas_aligned :
  forall chunks,
    forallb line_aligned chunks = true ->
    List.concat (map delta (flat_map split_nl chunks))
    = List.concat (map delta (split_nl (List.concat chunks))).
Proof.
  induction chunks as [|c chunks IH]; intro H; [reflexivity|].
  cbn [forallb] in H. apply andb_true_iff in H as [Hc Hcs].
  specialize (IH Hcs).
  cbn [flat_map List.concat]. rewrite map_app, concat_app, IH.
  destruct (line_aligned_inv _ Hc) as [->|[c' ->]].
  - reflexivity.
  - rewrite <- app_assoc. cbn [app]. rewrite !split_nl_app.
    rewrite !map_app, !concat_app. cbn [split_nl map List.concat].
    rewrite delta_empty_line. now rewrite !app_nil_r.
Qed.

(** C2, as the code has it. The decoder splits every chunk into lines on
    its own and keeps no partial line from one chunk to the next: the
    payload is the concatenation, in arrival order, of the text deltas of
    the lines of each chunk.  When every chunk ends at a line boundary, this
    is the concatenation of the text deltas of the lines of the whole
    stream, which is also what the stream gives when read as one chunk. *)
Theorem decode_chunkwise :
  forall chunks : list jsstring,
    decode chunks = List.concat (map delta (flat_map split_nl chunks))
    /\ (forallb line_aligned chunks = true ->
        decode chunks
        = List.concat (map delta (split_nl (List.concat chunks)))
        /\ decode chunks = decode [List.concat chunks]).
Proof.
  intros chunks. split; [apply decode_deltas|]. intro H.
  assert (Hw : decode chunks
               = List.concat (map delta (split_nl (List.concat chunks)))).
  { rewrite decode_deltas. now apply deltas_aligned. }
  split; [exact Hw|].
  rewrite Hw, decode_deltas. cbn [flat_map]. now rewrite app_nil_r.
Qed.

End DecoderFacts.

Lemma malformed_line_dropped_witness :
  (forall payload,
      handle_line JSON.parse integer_truthy integer_toString payload (lit "0:{")
      = payload)
  /\ decode JSON.parse integer_truthy integer_toString example_chunks
     = List.concat
         (map (delta JSON.parse integer_truthy integer_toString)
            (filter (fun l => negb (str_eqb l (lit "0:{")))
               (flat_map split_nl example_chunks))).
Proof.
  apply (@malformed_line_dropped JSON.parse integer_truthy integer_toString
           example_chunks (lit "0:{")).
  right. reflexivity.
Defined.

Lemma decode_chunkwise_witness :
  decode JSON.parse integer_truthy integer_toString aligned_chunks
  = List.concat
      (map (delta JSON.parse integer_truthy integer_toString)
         (flat_map split_nl aligned_chunks))
  /\ decode JSON.parse integer_truthy integer_toString aligned_chunks
     = List.concat
         (map (delta JSON.parse integer_truthy integer_toString)
            (split_nl (List.concat aligned_chunks)))
  /\ decode JSON.parse integer_truthy integer_toString aligned_chunks
     = decode JSON.parse integer_truthy integer_toString
         [List.concat aligned_chunks].
Proof.
  destruct (@decode_chunkwise JSON.parse integer_truthy integer_toString
              aligned_chunks) as [Hown Haligned].
  split; [exact Hown|]. apply Haligned. reflexivity.
Defined.

(** C2, refuted as stated: on the two chunks of the specification's
    example, split in the middle of the second line, the final text is Hi
    and not Hi there, while the same stream read as one chunk gives Hi
    there. *)
Lemma split_line_lost :
  cleanup (decode JSON.parse integer_truthy integer_toString example_chunks)
  = lit "Hi"
  /\ cleanup (decode JSON.parse integer_truthy integer_toString
                [List.concat example_chunks])
     = lit "Hi there"
  /\ lit "Hi" <> lit "Hi there".
Proof.
  repeat split; try (vm_compute; reflexivity). discriminate.
Qed.

(** ** Heuristic synthesizer *)

Lemma edges_numbered :
  forall arrow labels index,
    edges arrow index labels
    = List.concat
        (map (edge_text arrow)
           (combine (seq (index + 1) (List.length labels)) labels)).
Proof.
  induction labels as [|l labels IH]; intro index; [reflexivity|].
  cbn [edges List.length seq combine map List.concat].
  rewrite IH. unfold edge_text at 2. cbn [fst snd].
  rewrite <- !app_assoc. reflexivity.
Qed.

Lemma sentences_incl :
  forall n body s, In s (sentences n body) -> In s (split_sentences body).
Proof.
  intros n body s H. unfold sentences in H.
  apply filter_In in H. tauto.
Qed.

Lemma In_firstn : forall (A : Type) n (l : list A) x, In x (firstn n l) -> In x l.
Proof.
  intros A n l x H. rewrite <- (firstn_skipn n l).
  apply in_or_app. now left.
Qed.





Example workflow_steps :
  steps workflow_body
  = [lit "The workflow has par..."; lit "Initial Setup"; lit "Main Process";
     lit "A sentence of no key..."].
Proof. vm_compute. reflexivity. Qed.

(** ** Trimming *)

Lemma dropWhile_length :
  forall f s, List.length (dropWhile f s) <= List.length s.
Proof.
  induction s as [|c s IH]; simpl; [lia|].
  destruct (f c); simpl; lia.
Qed.

Lemma trimEnd_length : forall s, List.length (trimEnd s) <= List.length s.
Proof.
  induction s as [|c s IH]; simpl; [lia|].
  destruct (trimEnd s); [destruct (isWhiteSpace c)|]; simpl in *; lia.
Qed.

Lemma trim_length : forall s, List.length (trim s) <= List.length s.
Proof.
  intro s. unfold trim, trimStart.
  pose proof (trimEnd_length (dropWhile isWhiteSpace s)).
  pose proof (dropWhile_length isWhiteSpace s). lia.
Qed.

Lemma dropWhile_head :
  forall f s c r, dropWhile f s = c :: r -> f c = false.
Proof.
  induction s as [|d s IH]; intros c r H; simpl in H; [discriminate|].
  destruct (f d) eqn:E; [now apply IH in H|].
  now injection H as <- _.
Qed.

Lemma dropWhile_fixed :
  forall f c r, f c = false -> dropWhile f (c :: r) = c :: r.
Proof.
  intros f c r H. simpl. now rewrite H.
Qed.

Lemma trimEnd_head :
  forall c t, isWhiteSpace c = false -> exists r, trimEnd (c :: t) = c :: r.
Proof.
  intros c t H. cbn [trimEnd]. rewrite H.
  destruct (trimEnd t); eauto.
Qed.

Lemma trimEnd_ends : forall s, ends_with isWhiteSpace (trimEnd s) = false.
Proof.
  induction s as [|c s IH]; [reflexivity|].
  cbn [trimEnd]. destruct (trimEnd s) as [|d r] eqn:E.
  - destruct (isWhiteSpace c) eqn:Hc; cbn; auto.
  - exact IH.
Qed.

Lemma trimEnd_fixed :
  forall s, ends_with isWhiteSpace s = false -> trimEnd s = s.
Proof.
  induction s as [|c s IH]; intro H; [reflexivity|].
  cbn [trimEnd]. destruct s as [|d s'].
  - cbn in H. cbn. now rewrite H.
  - cbn [ends_with] in H. now rewrite (IH H).
Qed.

(** What [trim] returns starts and ends with no white space. *)
Lemma trim_head :
  forall s c r, trim s = c :: r -> isWhiteSpace c = false.
Proof.
  intros s c r H. unfold trim, trimStart in H.
  destruct (dropWhile isWhiteSpace s) as [|d t] eqn:E; [discriminate|].
  apply dropWhile_head in E.
  destruct (trimEnd_head d t E) as [r' Hr]. rewrite Hr in H.
  now injection H as <- _.
Qed.

Lemma trim_ends : forall s, ends_with isWhiteSpace (trim s) = false.
Proof.
  intro s. apply trimEnd_ends.
Qed.

Lemma trim_fixed :
  forall s,
    (forall c r, s = c :: r -> isWhiteSpace c = false) ->
    ends_with isWhiteSpace s = false ->
    trim s = s.
Proof.
  intros s Hh He. unfold trim, trimStart.
  destruct s as [|c r]; [reflexivity|].
  rewrite dropWhile_fixed by (now apply (Hh c r)).
  now apply trimEnd_fixed.
Qed.

Lemma trim_idempotent : forall s, trim (trim s) = trim s.
Proof.
  intro s. apply trim_fixed.
  - intros c r H. now apply (trim_head s c r H).
  - apply trim_ends.
Qed.

(** ** Fence clean-up *)

Lemma startsWith_app :
  forall p s t, startsWith p s = true -> startsWith p (s ++ t) = true.
Proof.
  induction p as [|x p IH]; intros s t H; [reflexivity|].
  destruct s as [|y s]; [discriminate|].
  cbn [startsWith app] in *. apply andb_true_iff in H as [Hx Hp].
  now rewrite Hx, (IH _ t Hp).
Qed.

Lemma includes_app :
  forall p s t, includes p s = true -> includes p (s ++ t) = true.
Proof.
  induction s as [|c s IH]; intros t H.
  - cbn [includes] in H. rewrite orb_false_r in H.
    destruct p; [|discriminate]. now destruct t.
  - cbn [includes app] in *. apply orb_true_iff in H as [H|H].
    + pose proof (startsWith_app _ _ t H) as H'. cbn [app] in H'.
      now rewrite H'.
    + rewrite (IH t H). apply orb_true_r.
Qed.

Lemma includes_dropWhile :
  forall p f s, includes p (dropWhile f s) = true -> includes p s = true.
Proof.
  induction s as [|c s IH]; intro H; [exact H|].
  cbn [dropWhile] in H. destruct (f c); [|exact H].
  cbn [includes]. rewrite (IH H). apply orb_true_r.
Qed.

Lemma trimEnd_prefix : forall s, exists t, s = trimEnd s ++ t.
Proof.
  induction s as [|c s [t IH]]; [now exists []|].
  cbn [trimEnd]. destruct (trimEnd s) as [|d r] eqn:E.
  - destruct (isWhiteSpace c); [now exists (c :: s)|].
    exists s. reflexivity.
  - exists t. cbn [app]. f_equal. exact IH.
Qed.

Lemma includes_trim :
  forall p s, includes p (trim s) = true -> includes p s = true.
Proof.
  intros p s H. unfold trim, trimStart in H.
  apply (includes_dropWhile p isWhiteSpace).
  destruct (trimEnd_prefix (dropWhile isWhiteSpace s)) as [t Ht].
  rewrite Ht. now apply includes_app.
Qed.

Lemma fence_units : fence = [96; 96; 96]%N.
Proof. reflexivity. Qed.

Lemma skip_nl_length : forall s, List.length (skip_nl s) <= List.length s.
Proof.
  destruct s as [|c r]; simpl; [lia|].
  destruct (N.eqb c LF); simpl; lia.
Qed.

(** After the deletion of every fence no fence is left: the pieces that
    are kept never end with a backquote where a fence was removed, so none
    is formed where two pieces meet. *)
Lemma remove_fence_spec :
  forall fuel s,
    List.length s < fuel ->
    includes fence (remove_all fuel fence s) = false
    /\ (startsWith [96%N] (remove_all fuel fence s) = true ->
        startsWith [96%N] s = true)
    /\ (startsWith [96%N; 96%N] (remove_all fuel fence s) = true ->
        startsWith [96%N; 96%N] s = true).
Proof.
  rewrite fence_units.
  induction fuel as [|f IH]; intros s Hlen; [lia|].
  destruct s as [|c rest]; [cbn; repeat split; discriminate|].
  cbn [remove_all].
  destruct (startsWith [96; 96; 96]%N (c :: rest)) eqn:E.
  - (* a fence at the front: it is deleted *)
    assert (Hs : exists t, c :: rest = 96%N :: 96%N :: 96%N :: t).
    { destruct rest as [|c2 [|c3 t]]; cbn [startsWith] in E;
        rewrite ?andb_false_r in E; try discriminate.
      apply andb_true_iff in E as [E1 E].
      apply andb_true_iff in E as [E2 E].
      apply andb_true_iff in E as [E3 _].
      apply N.eqb_eq in E1, E2, E3. subst. now exists t. }
    destruct Hs as [t Ht]. rewrite Ht in *.
    assert (Hl : List.length (skip_nl t) < f).
    { pose proof (skip_nl_length t). simpl in Hlen. lia. }
    destruct (IH _ Hl) as [H0 _].
    change (skipn (List.length [96%N; 96%N; 96%N]) (96%N :: 96%N :: 96%N :: t))
      with t.
    split; [exact H0|split; intros _; reflexivity].
  - (* no fence at the front: the code unit is kept *)
    assert (Hl : List.length rest < f) by (simpl in Hlen; lia).
    destruct (IH _ Hl) as [H0 [H1 H2]].
    repeat split.
    + cbn [includes]. rewrite H0, orb_false_r.
      destruct (startsWith [96; 96; 96]%N (c :: remove_all f [96; 96; 96]%N rest))
        eqn:E'; [|reflexivity].
      exfalso. cbn [startsWith] in E'. apply andb_true_iff in E' as [Ec E'].
      assert (H2' : startsWith [96; 96]%N rest = true) by (apply H2; exact E').
      cbn [startsWith] in E. rewrite Ec in E. cbn [andb] in E.
      cbn [startsWith] in H2'. rewrite H2' in E. discriminate.
    + intro H. cbn [startsWith] in *. apply andb_true_iff in H as [Hc _].
      now rewrite Hc.
    + intro H. cbn [startsWith] in H. apply andb_true_iff in H as [Hc H].
      assert (H1' : startsWith [96%N] rest = true) by (apply H1; exact H).
      cbn [startsWith]. rewrite Hc. exact H1'.
Qed.

Lemma replace_fence_clean :
  forall s, includes fence (replace_fence fence s) = false.
Proof.
  intro s. unfold replace_fence.
  apply remove_fence_spec. lia.
Qed.

Lemma trim_clean :
  forall s, includes fence s = false -> includes fence (trim s) = false.
Proof.
  intros s H. destruct (includes fence (trim s)) eqn:E; [|reflexivity].
  apply includes_trim in E. congruence.
Qed.


Lemma startsWith_prefix :
  forall p x s, startsWith (p ++ x) s = true -> startsWith p s = true.
Proof.
  induction p as [|a p IH]; intros x s H; [reflexivity|].
  destruct s as [|b s]; [discriminate|].
  cbn [app startsWith] in *. apply andb_true_iff in H as [Ha Hp].
  now rewrite Ha, (IH x s Hp).
Qed.

Lemma includes_prefix :
  forall p x s, includes p s = false -> includes (p ++ x) s = false.
Proof.
  induction s as [|c s IH]; intro H; cbn [includes] in *;
    apply orb_false_iff in H as [H1 H2]; apply orb_false_iff; split;
    try reflexivity; try (now apply IH).
  - destruct (startsWith (p ++ x) []) eqn:E; [|reflexivity].
    apply startsWith_prefix in E. congruence.
  - destruct (startsWith (p ++ x) (c :: s)) eqn:E; [|reflexivity].
    apply startsWith_prefix in E. congruence.
Qed.

Lemma remove_all_absent :
  forall pat fuel s, includes pat s = false -> remove_all fuel pat s = s.
Proof.
  intros pat. induction fuel as [|f IH]; intros s H; [reflexivity|].
  destruct s as [|c r]; [reflexivity|].
  cbn [remove_all]. cbn [includes] in H.
  apply orb_false_iff in H as [H1 H2]. now rewrite H1, (IH r H2).
Qed.

(** X18. A payload without three backquotes in a row is only trimmed, in
    both copies of the clean-up: every other code unit, a single or double
    backquote included, reaches the result. *)
Lemma cleanup_without_fence :
  forall s,
    includes fence s = false ->
    cleanup s = trim s /\ cleanup_chat s = trim s.
Proof.
  intros s H. unfold cleanup, cleanup_chat, replace_fence.
  assert (Hm : includes (lit "```mermaid") s = false)
    by (apply (includes_prefix fence (lit "mermaid") s H)).
  assert (Hh : includes (lit "```html") s = false)
    by (apply (includes_prefix fence (lit "html") s H)).
  rewrite !(remove_all_absent (lit "```mermaid") _ s Hm).
  rewrite !(remove_all_absent (lit "```html") _ s Hh).
  rewrite !(remove_all_absent fence _ s H). split; reflexivity.
Qed.

(** *** What the clean-up keeps *)



















(** ** Re-segmentation of re-emitted sections *)

Lemma split_lines_not_nil : forall s, split_lines s <> [].
Proof.
  destruct s as [|c s]; cbn [split_lines]; [discriminate|].
  destruct (N.eqb c LF); [discriminate|].
  destruct s as [|d s]; [discriminate|].
  destruct (N.eqb c CR && N.eqb d LF); [discriminate|].
  destruct (split_lines (d :: s)); discriminate.
Qed.

Lemma split_lines_LF : forall s, split_lines (LF :: s) = [] :: split_lines s.
Proof. reflexivity. Qed.

Lemma split_lines_cons2 :
  forall c d s,
    N.eqb c LF = false ->
    split_lines (c :: d :: s)
    = if N.eqb c CR && N.eqb d LF then [] :: split_lines s
      else cons_head c (split_lines (d :: s)).
Proof.
  intros c d s H. cbn [split_lines]. now rewrite H.
Qed.

Lemma ends_with_mono :
  forall (f g : N -> bool) s,
    (forall c, g c = true -> f c = true) ->
    ends_with f s = false -> ends_with g s = false.
Proof.
  intros f g s Hfg. induction s as [|c s IH]; intro H; [reflexivity|].
  destruct s as [|d s'].
  - cbn in *. destruct (g c) eqn:E; [|reflexivity].
    apply Hfg in E. congruence.
  - cbn [ends_with] in *. now apply IH.
Qed.

Lemma ends_with_tail2 :
  forall f c d s, ends_with f (c :: d :: s) = false -> ends_with f s = false.
Proof.
  intros f c d s H. cbn [ends_with] in H.
  destruct s as [|e s']; [reflexivity|exact H].
Qed.

(** A line feed after a text that does not end with a carriage return
    separates the lines of the text from the lines of what follows. *)
Lemma split_lines_app_bounded :
  forall n x y,
    List.length x <= n ->
    ends_with is_CR x = false ->
    split_lines (x ++ LF :: y) = split_lines x ++ split_lines y.
Proof.
  induction n as [|n IH]; intros x y Hn He.
  - destruct x; [reflexivity|simpl in Hn; lia].
  - destruct x as [|c x]; [reflexivity|].
    destruct (N.eqb c LF) eqn:Ec.
    + apply N.eqb_eq in Ec. subst c. cbn [app].
      rewrite !split_lines_LF. cbn [app]. f_equal.
      apply IH; [simpl in Hn; lia|].
      destruct x as [|d x']; [reflexivity|exact He].
    + destruct x as [|d x'].
      * cbn [app]. rewrite split_lines_cons2 by exact Ec.
        cbn in He. unfold is_CR in He. rewrite He. cbn [andb].
        rewrite split_lines_LF. cbn [split_lines]. now rewrite Ec.
      * cbn [app]. rewrite !split_lines_cons2 by exact Ec.
        destruct (N.eqb c CR && N.eqb d LF).
        -- cbn [app]. f_equal. apply IH; [simpl in Hn; lia|].
           now apply (ends_with_tail2 is_CR c d).
        -- change (d :: x' ++ LF :: y) with ((d :: x') ++ LF :: y).
           rewrite IH; [|simpl in Hn |- *; lia|exact He].
           apply cons_head_app, split_lines_not_nil.
Qed.

Lemma split_lines_app :
  forall x y,
    ends_with is_CR x = false ->
    split_lines (x ++ LF :: y) = split_lines x ++ split_lines y.
Proof.
  intros x y. now apply (split_lines_app_bounded (List.length x)).
Qed.

Lemma unlines_cons_head :
  forall c ls, ls <> [] -> unlines (cons_head c ls) = c :: unlines ls.
Proof.
  intros c [|l ls] H; [contradiction|reflexivity].
Qed.

Lemma has_crlf_tail : forall c s, has_crlf (c :: s) = false -> has_crlf s = false.
Proof.
  intros c [|d s] H; [reflexivity|].
  cbn [has_crlf] in H. now apply orb_false_iff in H as [_ H].
Qed.

(** Without a carriage return before a line feed, the lines of a text,
    each closed by a line feed, give the text back. *)
Lemma unlines_split_lines :
  forall s, has_crlf s = false -> unlines (split_lines s) = s ++ [LF].
Proof.
  induction s as [|c s IH]; intro H; [reflexivity|].
  pose proof (has_crlf_tail c s H) as Hs. specialize (IH Hs).
  destruct (N.eqb c LF) eqn:Ec.
  - apply N.eqb_eq in Ec. subst c. rewrite split_lines_LF.
    unfold unlines in *. cbn [map List.concat app]. now rewrite IH.
  - destruct s as [|d s'].
    + cbn [split_lines]. rewrite Ec. reflexivity.
    + rewrite split_lines_cons2 by exact Ec.
      cbn [has_crlf] in H. apply orb_false_iff in H as [H _].
      rewrite H. rewrite unlines_cons_head by apply split_lines_not_nil.
      now rewrite IH.
Qed.

Lemma trimEnd_all_ws :
  forall w, forallb isWhiteSpace w = true -> trimEnd w = [].
Proof.
  induction w as [|c w IH]; intro H; [reflexivity|].
  cbn [forallb] in H. apply andb_true_iff in H as [Hc Hw].
  cbn [trimEnd]. now rewrite (IH Hw), Hc.
Qed.

Lemma trimEnd_app_ws :
  forall s w, forallb isWhiteSpace w = true -> trimEnd (s ++ w) = trimEnd s.
Proof.
  induction s as [|c s IH]; intros w H.
  - now apply trimEnd_all_ws.
  - cbn [app trimEnd]. now rewrite (IH w H).
Qed.

Lemma dropWhile_all :
  forall f w, forallb f w = true -> dropWhile f w = [].
Proof.
  induction w as [|c w IH]; intro H; [reflexivity|].
  cbn [forallb] in H. apply andb_true_iff in H as [Hc Hw].
  cbn [dropWhile]. now rewrite Hc, (IH Hw).
Qed.

(** White space added at the end does not change what [trim] returns. *)
Lemma trim_app_ws :
  forall s w, forallb isWhiteSpace w = true -> trim (s ++ w) = trim s.
Proof.
  intros s w H. unfold trim, trimStart.
  induction s as [|c s IH].
  - cbn [app]. now rewrite (dropWhile_all isWhiteSpace w H).
  - cbn [app dropWhile]. destruct (isWhiteSpace c); [exact IH|].
    change (c :: s ++ w) with ((c :: s) ++ w). now apply trimEnd_app_ws.
Qed.

Lemma no_terminator_dropWhile :
  forall f s, no_terminator s = true -> no_terminator (dropWhile f s) = true.
Proof.
  induction s as [|c s IH]; intro H; [reflexivity|].
  cbn [dropWhile]. destruct (f c); [|exact H].
  apply IH. unfold no_terminator in H. cbn [forallb] in H.
  now apply andb_true_iff in H as [_ H].
Qed.

Lemma no_terminator_trim :
  forall s, no_terminator s = true -> no_terminator (trim s) = true.
Proof.
  intros s H. unfold trim, trimStart.
  apply (no_terminator_dropWhile isWhiteSpace) in H.
  destruct (trimEnd_prefix (dropWhile isWhiteSpace s)) as [t Ht].
  rewrite Ht in H. unfold no_terminator in *. rewrite forallb_app in H.
  now apply andb_true_iff in H as [H _].
Qed.

Lemma no_terminator_ends :
  forall s, no_terminator s = true -> ends_with is_CR s = false.
Proof.
  induction s as [|c s IH]; intro H; [reflexivity|].
  unfold no_terminator in H. cbn [forallb] in H.
  apply andb_true_iff in H as [Hc Hs].
  destruct s as [|d s'].
  - cbn. unfold is_CR, CR. unfold isLineTerminator in Hc.
    destruct (N.eqb c 10), (N.eqb c 13); try discriminate; reflexivity.
  - cbn [ends_with]. now apply IH.
Qed.

Lemma trimmed_ends :
  forall s, trim s = s -> ends_with is_CR s = false.
Proof.
  intros s H. apply (ends_with_mono isWhiteSpace).
  - intros c Hc. unfold is_CR in Hc. apply N.eqb_eq in Hc. now subst c.
  - rewrite <- H. apply trim_ends.
Qed.

(** The text group of a heading line holds no line terminator. *)
Lemma spaces_then_text_group :
  forall s g, spaces_then_text s = Some g -> no_terminator g = true.
Proof.
  induction s as [|c s IH]; intros g H; [discriminate|].
  cbn [spaces_then_text] in H.
  destruct (isWhiteSpace c); [|discriminate].
  destruct (spaces_then_text s) as [g'|] eqn:E.
  - injection H as <-. now apply IH.
  - destruct (dot_plus_end s) eqn:D; [|discriminate].
    injection H as <-. unfold dot_plus_end in D.
    destruct s; [discriminate|exact D].
Qed.

Lemma hashes_then_group :
  forall n s g, hashes_then n s = Some g -> no_terminator g = true.
Proof.
  induction n as [|n IH]; intros s g H; [discriminate|].
  cbn [hashes_then] in H. destruct s as [|c s]; [discriminate|].
  destruct (N.eqb c 35); [|discriminate].
  destruct (hashes_then n s) as [g'|] eqn:E.
  - injection H as <-. now apply (IH s).
  - now apply (spaces_then_text_group s).
Qed.

(** A heading line re-emitted from a heading that is trimmed, not empty
    and free of line terminators matches, and gives the heading back. *)
Lemma headingMatch_emitted :
  forall h,
    h <> [] -> trim h = h -> no_terminator h = true ->
    headingMatch (lit "# " ++ h) = Some h.
Proof.
  intros h Hne Ht Hn. destruct h as [|c r]; [contradiction|].
  assert (Hc : isWhiteSpace c = false).
  { apply (trim_head (c :: r) c r). exact Ht. }
  change (lit "# " ++ c :: r) with (35%N :: 32%N :: c :: r).
  unfold headingMatch. cbn [hashes_then]. rewrite N.eqb_refl.
  change (N.eqb 32 35) with false. cbn iota.
  cbn [spaces_then_text]. change (isWhiteSpace 32) with true. cbn iota.
  rewrite Hc. unfold dot_plus_end. unfold no_terminator in Hn.
  now rewrite Hn.
Qed.

Lemma pushCurrent_wf :
  forall st, state_wf st -> Forall section_wf (pushCurrent st).
Proof.
  intros [done [c|]] [Hd Hc]; unfold pushCurrent; cbn [fst snd] in *.
  - apply Forall_app. split; [exact Hd|].
    constructor; [|constructor].
    split; [exact (Hc c eq_refl)|]. cbn [body]. apply trim_idempotent.
  - exact Hd.
Qed.

Lemma step_wf :
  forall now st line, state_wf st -> state_wf (Sectionizer.step now st line).
Proof.
  intros now st line Hst. unfold Sectionizer.step.
  destruct (headingMatch line) as [g|] eqn:E.
  - split; cbn [fst snd].
    + now apply pushCurrent_wf.
    + intros c Hc. injection Hc as <-. split; cbn [heading].
      * apply trim_idempotent.
      * apply no_terminator_trim. now apply (hashes_then_group 6 line).
  - destruct Hst as [Hd Hc]. destruct (snd st) as [c|] eqn:Es.
    + split; cbn [fst snd]; [exact Hd|].
      intros c' Hc'. injection Hc' as <-. exact (Hc c eq_refl).
    + split; cbn [fst snd]; [exact Hd|].
      intros c' Hc'. injection Hc' as <-. split; reflexivity.
Qed.

Lemma loop_wf :
  forall clock lines i st, state_wf st -> state_wf (loop clock i lines st).
Proof.
  induction lines as [|l lines IH]; intros i st H; [exact H|].
  cbn [loop]. apply IH. now apply step_wf.
Qed.

Lemma segment_wf :
  forall clock md, Forall section_wf (splitMarkdownIntoSections clock md).
Proof.
  intros clock md. apply pushCurrent_wf, loop_wf.
  split; cbn [fst snd]; [constructor|discriminate].
Qed.

Lemma step_current :
  forall now st line, snd (Sectionizer.step now st line) <> None.
Proof.
  intros now st line. unfold Sectionizer.step.
  destruct (headingMatch line); [discriminate|].
  destruct (snd st); discriminate.
Qed.

Lemma loop_current :
  forall clock lines i st,
    snd st <> None -> snd (loop clock i lines st) <> None.
Proof.
  induction lines as [|l lines IH]; intros i st H; [exact H|].
  cbn [loop]. apply IH, step_current.
Qed.

(** The sectionizer returns at least one section, whatever the input. *)
Lemma segment_not_nil :
  forall clock md, splitMarkdownIntoSections clock md <> [].
Proof.
  intros clock md. unfold splitMarkdownIntoSections.
  destruct (split_lines md) as [|l lines] eqn:E.
  - now apply split_lines_not_nil in E.
  - cbn [loop].
    pose proof (loop_current clock lines 1
                  (Sectionizer.step (clock 0) ([], None) l)
                  (step_current _ _ _)) as H.
    unfold pushCurrent.
    destruct (snd (loop clock 1 lines (Sectionizer.step (clock 0) ([], None) l)));
      [|contradiction].
    intro Hnil. now apply app_eq_nil in Hnil as [_ Hnil].
Qed.

Lemma state_content_inv :
  forall st st',
    state_content st = state_content st' ->
    map content (fst st) = map content (fst st')
    /\ option_map content (snd st) = option_map content (snd st').
Proof.
  intros st st' H. unfold state_content in H. now injection H.
Qed.

Lemma pushCurrent_content :
  forall st st',
    state_content st = state_content st' ->
    map content (pushCurrent st) = map content (pushCurrent st').
Proof.
  intros st st' H. apply state_content_inv in H as [Hd Hc].
  unfold pushCurrent.
  destruct (snd st) as [c|], (snd st') as [c'|]; cbn [option_map] in Hc;
    try discriminate; [|exact Hd].
  injection Hc as Hh Hb.
  rewrite !map_app, Hd. cbn [map]. unfold content at 2 4. cbn [heading body].
  now rewrite Hh, Hb.
Qed.

Lemma step_content :
  forall now now' st st' line,
    state_content st = state_content st' ->
    state_content (Sectionizer.step now st line)
    = state_content (Sectionizer.step now' st' line).
Proof.
  intros now now' st st' line H. unfold Sectionizer.step.
  destruct (headingMatch line) as [g|].
  - unfold state_content. cbn [fst snd option_map].
    now rewrite (pushCurrent_content st st' H).
  - apply state_content_inv in H as [Hd Hc].
    destruct (snd st) as [c|], (snd st') as [c'|]; cbn [option_map] in Hc;
      try discriminate; unfold state_content; cbn [fst snd option_map].
    + injection Hc as Hh Hb. rewrite Hd. unfold content. cbn [heading body].
      now rewrite Hh, Hb.
    + now rewrite Hd.
Qed.

Lemma loop_content :
  forall clock clock' lines i j st st',
    state_content st = state_content st' ->
    state_content (loop clock i lines st)
    = state_content (loop clock' j lines st').
Proof.
  induction lines as [|l lines IH]; intros i j st st' H; [exact H|].
  cbn [loop]. apply IH. now apply step_content.
Qed.

(** The content of the sections does not depend on the clock. *)
Lemma segment_content_clock :
  forall clock clock' md,
    map content (splitMarkdownIntoSections clock md)
    = map content (splitMarkdownIntoSections clock' md).
Proof.
  intros clock clock' md. unfold splitMarkdownIntoSections.
  apply pushCurrent_content, loop_content. reflexivity.
Qed.

Lemma loop_app :
  forall clock l1 l2 i st,
    loop clock i (l1 ++ l2) st
    = loop clock (i + List.length l1) l2 (loop clock i l1 st).
Proof.
  induction l1 as [|l l1 IH]; intros l2 i st.
  - cbn [app loop List.length]. now rewrite Nat.add_0_r.
  - cbn [app loop List.length]. rewrite IH. f_equal. lia.
Qed.

(** Lines that are no heading lines go to the body of the current
    section, each closed by a line feed. *)
Lemma loop_body_lines :
  forall clock lines i done c,
    forallb (fun l => negb (is_heading_line l)) lines = true ->
    loop clock i lines (done, Some c)
    = (done,
       Some (mkSection (id c) (heading c) (body c ++ unlines lines)
                       (code c) (mermaidCode c))).
Proof.
  induction lines as [|l lines IH]; intros i done c H.
  - cbn [loop]. unfold unlines. cbn [map List.concat].
    rewrite app_nil_r. now destruct c.
  - cbn [forallb] in H. apply andb_true_iff in H as [Hl Hls].
    cbn [loop]. unfold Sectionizer.step. unfold is_heading_line in Hl.
    destruct (headingMatch l); [discriminate|]. cbn [snd fst].
    rewrite (IH _ _ _ Hls). cbn [id heading body code mermaidCode].
    unfold unlines. cbn [map List.concat].
    now rewrite <- !app_assoc.
Qed.

Lemma reads_back_inv :
  forall s,
    reads_back s = true ->
    heading s <> []
    /\ forallb (fun l => negb (is_heading_line l)) (split_lines (body s)) = true
    /\ has_crlf (body s) = false.
Proof.
  intros s H. unfold reads_back in H.
  apply andb_true_iff in H as [H H3]. apply andb_true_iff in H as [H1 H2].
  repeat split.
  - intro E. rewrite E in H1. discriminate.
  - exact H2.
  - now apply negb_true_iff in H3.
Qed.

(** What the loop does with the lines of one re-emitted section. *)
Lemma loop_emitted_section :
  forall clock s i st,
    section_wf s -> reads_back s = true ->
    exists ident,
      loop clock i
        ((lit "# " ++ heading s) :: split_lines (body s)) st
      = (pushCurrent st,
         Some (mkSection ident (heading s) (body s ++ [LF]) None None)).
Proof.
  intros clock s i st [[Ht Hn] Hb] Hr.
  destruct (reads_back_inv s Hr) as [Hne [Hl Hc]].
  cbn [loop]. unfold Sectionizer.step at 1.
  rewrite (headingMatch_emitted (heading s) Hne Ht Hn). rewrite Ht.
  eexists. rewrite (loop_body_lines clock _ _ _ _ Hl).
  cbn [id heading body code mermaidCode app].
  now rewrite (unlines_split_lines (body s) Hc).
Qed.

Lemma emitted_lines :
  forall s rest,
    section_wf s ->
    split_lines (emit (s :: rest))
    = ((lit "# " ++ heading s) :: split_lines (body s))
      ++ split_lines (emit rest).
Proof.
  intros s rest [[Ht Hn] Hb]. unfold emit. cbn [map List.concat].
  fold (emit rest). unfold emit_section.
  replace ((lit "# " ++ heading s ++ [LF] ++ body s ++ [LF]) ++ emit rest)
    with ((lit "# " ++ heading s) ++ LF :: (body s ++ LF :: emit rest))
    by (rewrite <- !app_assoc; reflexivity).
  assert (Hx : no_terminator (lit "# " ++ heading s) = true).
  { unfold no_terminator in *. rewrite forallb_app, Hn. reflexivity. }
  rewrite split_lines_app by (now apply no_terminator_ends).
  rewrite (split_lines_single _ Hx).
  rewrite split_lines_app by (now apply trimmed_ends).
  reflexivity.
Qed.

(** Re-segmenting the re-emission of sections that read back appends
    their content to what the loop had before. *)
Lemma resegment_from :
  forall clock ss i st,
    ss <> [] ->
    Forall section_wf ss ->
    forallb reads_back ss = true ->
    map content (pushCurrent (loop clock i (split_lines (emit ss)) st))
    = map content (pushCurrent st) ++ map content ss.
Proof.
  induction ss as [|s rest IH]; intros i st Hne Hwf Hrb; [contradiction|].
  inversion Hwf as [|? ? Hs Hrest]; subst.
  cbn [forallb] in Hrb. apply andb_true_iff in Hrb as [Hr Hrs].
  rewrite (emitted_lines s rest Hs), loop_app.
  destruct (loop_emitted_section clock s i st Hs Hr) as [ident ->].
  destruct Hs as [_ Hb].
  destruct rest as [|s2 rest'].
  - change (split_lines (emit [])) with [[] : jsstring].
    cbn [loop]. unfold Sectionizer.step.
    change (headingMatch []) with (@None jsstring). cbn [snd fst].
    unfold pushCurrent at 1. cbn [snd fst id heading body code mermaidCode].
    rewrite map_app. cbn [map]. unfold content at 2 4. cbn [heading body].
    replace ((body s ++ [LF]) ++ [] ++ [LF]) with (body s ++ [LF; LF])
      by (rewrite <- app_assoc; reflexivity).
    rewrite trim_app_ws by reflexivity. now rewrite Hb.
  - rewrite IH; [|discriminate|exact Hrest|exact Hrs].
    unfold pushCurrent at 1. cbn [snd fst id heading body code mermaidCode].
    rewrite map_app. cbn [map]. unfold content at 2 4 5. cbn [heading body].
    rewrite trim_app_ws by reflexivity. rewrite Hb.
    now rewrite <- app_assoc.
Qed.

(** C5, as the code has it. The content of the sections is a function of
    the text alone: for every text, two runs give the same headings and
    bodies, whatever the identifiers.  Re-segmenting the re-emission of the
    sections of a first run gives sections with the same headings and
    bodies when every section of the first run reads back: its heading is
    not empty, no line of its body is a heading line, and its body holds no
    carriage return directly before a line feed. *)
Theorem resegment_reads_back :
  forall (clock clock' : nat -> N) (markdown : jsstring),
    map content (splitMarkdownIntoSections clock' markdown)
    = map content (splitMarkdownIntoSections clock markdown)
    /\ (forallb reads_back (splitMarkdownIntoSections clock markdown) = true ->
        map content
          (splitMarkdownIntoSections clock'
             (emit (splitMarkdownIntoSections clock markdown)))
        = map content (splitMarkdownIntoSections clock markdown)).
Proof.
  intros clock clock' md. split; [apply segment_content_clock|]. intro H.
  unfold splitMarkdownIntoSections at 1.
  rewrite resegment_from.
  - reflexivity.
  - apply segment_not_nil.
  - apply segment_wf.
  - exact H.
Qed.

Lemma resegment_reads_back_witness :
  map content (splitMarkdownIntoSections (fun n => N.of_nat n) sample_markdown)
  = map content (splitMarkdownIntoSections (fun _ => 0%N) sample_markdown)
  /\ map content
       (splitMarkdownIntoSections (fun n => N.of_nat n)
          (emit (splitMarkdownIntoSections (fun _ => 0%N) sample_markdown)))
     = map content (splitMarkdownIntoSections (fun _ => 0%N) sample_markdown).
Proof.
  destruct (resegment_reads_back (fun _ => 0%N) (fun n => N.of_nat n)
              sample_markdown) as [Hsame Hback].
  split; [exact Hsame|]. apply Hback. vm_compute. reflexivity.
Defined.

(** C5, refuted as stated: the body of the only section is trimmed to a
    heading line, and the re-emission is segmented into two sections.  A
    section with an empty heading does not read back either. *)
Lemma resegment_differs :
  map content (splitMarkdownIntoSections (fun _ => 0%N) indented_heading)
  = [(lit "A", lit "# B")]
  /\ map content
       (splitMarkdownIntoSections (fun _ => 0%N)
          (emit (splitMarkdownIntoSections (fun _ => 0%N) indented_heading)))
     = [(lit "A", []); (lit "B", [])]
  /\ map content (splitMarkdownIntoSections (fun _ => 0%N) (lit "#  "))
     = [([], [])]
  /\ map content
       (splitMarkdownIntoSections (fun _ => 0%N)
          (emit (splitMarkdownIntoSections (fun _ => 0%N) (lit "#  "))))
     = [(lit "Introduction", lit "#")].
Proof.
  repeat split; vm_compute; reflexivity.
Qed.

(** ** The specification's examples, on the model *)

Example segment_intro_then_heading :
  map content
    (splitMarkdownIntoSections (fun _ => 0%N)
       (lit "intro text" ++ [LF] ++ lit "# H1" ++ [LF] ++ lit "body"))
  = [(lit "Introduction", lit "intro text"); (lit "H1", lit "body")].
Proof. vm_compute. reflexivity. Qed.

Example segment_two_headings :
  map content
    (splitMarkdownIntoSections (fun _ => 0%N) (lit "# A" ++ [LF] ++ lit "# B"))
  = [(lit "A", []); (lit "B", [])].
Proof. vm_compute. reflexivity. Qed.

Example segment_seven_hashes :
  map content (splitMarkdownIntoSections (fun _ => 0%N) (lit "####### H"))
  = [(lit "Introduction", lit "####### H")].
Proof. vm_compute. reflexivity. Qed.

Example parse_delta_line :
  JSON.parse (slice 2 (delta_line "Hi"))
  = Some (JObject [(lit "type", JString (lit "text-delta"));
                   (lit "textDelta", JString (lit "Hi"))]).
Proof. vm_compute. reflexivity. Qed.

Example parse_cut_line : JSON.parse (slice 2 (lit "0:{")) = None.
Proof. vm_compute. reflexivity. Qed.

Example decode_null_line :
  decode JSON.parse integer_truthy integer_toString
    [lit "0:null" ++ [LF] ++ delta_line "ok" ++ [LF] ++ lit "1:x"]
  = lit "ok".
Proof. vm_compute. reflexivity. Qed.

Example cleanup_fenced :
  cleanup (lit "```mermaid" ++ [LF] ++ lit "graph TD" ++ [LF] ++ lit "```" ++ [LF])
  = lit "graph TD".
Proof. vm_compute. reflexivity. Qed.

Example cleanup_html_tag :
  cleanup (lit "```html" ++ [LF] ++ lit "<p>") = lit "html" ++ [LF] ++ lit "<p>"
  /\ cleanup_chat (lit "```html" ++ [LF] ++ lit "<p>") = lit "<p>".
Proof. split; vm_compute; reflexivity. Qed.

(* ================================================================== *)
(** * Further properties *)
(* ================================================================== *)

(** ** Sectionizer: outline, identifiers, line endings *)

Lemma pushCurrent_some :
  forall done c,
    pushCurrent (done, Some c)
    = done ++ [mkSection (id c) (heading c) (trim (body c)) (code c)
                         (mermaidCode c)].
Proof. reflexivity. Qed.

Lemma step_headings :
  forall now st line,
    snd st <> None ->
    map heading (pushCurrent (Sectionizer.step now st line))
    = map heading (pushCurrent st) ++ opened_heading line.
Proof.
  intros now [done [c|]] line H; [|contradiction].
  unfold Sectionizer.step, opened_heading.
  destruct (headingMatch line) as [g|].
  - rewrite pushCurrent_some. cbn [id heading body code mermaidCode].
    rewrite map_app. reflexivity.
  - cbn [snd fst]. rewrite !pushCurrent_some.
    cbn [id heading body code mermaidCode].
    rewrite !map_app, app_nil_r. reflexivity.
Qed.

Lemma loop_headings :
  forall clock lines i st,
    snd st <> None ->
    map heading (pushCurrent (loop clock i lines st))
    = map heading (pushCurrent st) ++ flat_map opened_heading lines.
Proof.
  induction lines as [|l lines IH]; intros i st H.
  - cbn [loop flat_map]. now rewrite app_nil_r.
  - cbn [loop flat_map]. rewrite IH by apply step_current.
    rewrite step_headings by exact H. now rewrite app_assoc.
Qed.

(** X1. The headings of the sections are, in order, the trimmed text groups
    of the heading lines of the input, after the heading Introduction when
    the first line is no heading line; so the order of the document is kept
    and there is at least one section. *)
Theorem headings_in_order :
  forall (clock : nat -> N) (markdown : jsstring),
    map heading (splitMarkdownIntoSections clock markdown)
    = outline (split_lines markdown)
    /\ 1 <= List.length (splitMarkdownIntoSections clock markdown).
Proof.
  intros clock md. split.
  - unfold splitMarkdownIntoSections, outline.
    destruct (split_lines md) as [|first rest] eqn:E.
    + now apply split_lines_not_nil in E.
    + cbn [loop]. rewrite loop_headings by apply step_current.
      cbn [flat_map]. rewrite app_assoc. f_equal.
      unfold Sectionizer.step, is_heading_line, opened_heading.
      destruct (headingMatch first); reflexivity.
  - pose proof (segment_not_nil clock md) as H.
    destruct (splitMarkdownIntoSections clock md); [contradiction|simpl; lia].
Qed.

(** X2. A document without any heading line gives exactly one section,
    headed Introduction, whose body is the lines of the input, each closed
    by a line feed, trimmed as a whole, whatever the line endings of the
    input; without a carriage return directly before a line feed, the body
    is the trimmed input itself. *)
Theorem no_heading_document :
  forall (clock : nat -> N) (markdown : jsstring),
    forallb (fun l => negb (is_heading_line l)) (split_lines markdown) = true ->
    map content (splitMarkdownIntoSections clock markdown)
    = [(lit "Introduction", trim (unlines (split_lines markdown)))]
    /\ (has_crlf markdown = false ->
        map content (splitMarkdownIntoSections clock markdown)
        = [(lit "Introduction", trim markdown)]).
Proof.
  intros clock md Hl.
  assert (H : map content (splitMarkdownIntoSections clock md)
              = [(lit "Introduction", trim (unlines (split_lines md)))]).
  { unfold splitMarkdownIntoSections.
    destruct (split_lines md) as [|first rest] eqn:E.
    - now apply split_lines_not_nil in E.
    - cbn [forallb] in Hl. apply andb_true_iff in Hl as [Hf Hr].
      cbn [loop]. unfold Sectionizer.step at 1. unfold is_heading_line in Hf.
      destruct (headingMatch first); [discriminate|]. cbn [snd fst].
      rewrite (loop_body_lines clock rest 1 [] _ Hr).
      rewrite pushCurrent_some. cbn [id heading body code mermaidCode].
      cbn [app map]. unfold content. cbn [heading body].
      unfold unlines. cbn [map List.concat]. now rewrite <- app_assoc. }
  split; [exact H|]. intro Hc. rewrite H.
  rewrite (unlines_split_lines md Hc).
  now rewrite trim_app_ws by reflexivity.
Qed.

Lemma no_heading_document_witness :
  map content
    (splitMarkdownIntoSections (fun _ => 0%N)
       (lit "  first line" ++ [CR; LF] ++ lit "#second" ++ [LF]))
  = [(lit "Introduction",
      trim (unlines (split_lines
                       (lit "  first line" ++ [CR; LF] ++ lit "#second"
                        ++ [LF]))))]
  /\ map content
       (splitMarkdownIntoSections (fun _ => 0%N)
          (lit "  first line" ++ [LF] ++ lit "#second" ++ [LF]))
     = [(lit "Introduction",
         trim (lit "  first line" ++ [LF] ++ lit "#second" ++ [LF]))].
Proof.
  split.
  - apply (no_heading_document (fun _ => 0%N)
             (lit "  first line" ++ [CR; LF] ++ lit "#second" ++ [LF])).
    reflexivity.
  - apply (no_heading_document (fun _ => 0%N)
             (lit "  first line" ++ [LF] ++ lit "#second" ++ [LF])).
    + reflexivity.
    + reflexivity.
Defined.

(** *** Identifiers *)

Lemma lit_cons :
  forall a s, lit (String a s) = N_of_ascii a :: lit s.
Proof. reflexivity. Qed.

Lemma N_of_ascii_inj : forall a b, N_of_ascii a = N_of_ascii b -> a = b.
Proof.
  intros a b H. rewrite <- (ascii_N_embedding a), <- (ascii_N_embedding b).
  now rewrite H.
Qed.

Lemma lit_inj : forall a b, lit a = lit b -> a = b.
Proof.
  induction a as [|x a IH]; destruct b as [|y b]; intro H;
    try reflexivity; try discriminate.
  rewrite !lit_cons in H. injection H as Hx Hs.
  apply N_of_ascii_inj in Hx. apply IH in Hs. now subst.
Qed.

Lemma dec_inj : forall a b, dec a = dec b -> a = b.
Proof.
  intros a b H. unfold dec in H. apply lit_inj in H.
  apply Unsigned.to_uint_inj.
  pose proof (NilEmpty.usu (N.to_uint a)) as Ha.
  pose proof (NilEmpty.usu (N.to_uint b)) as Hb.
  rewrite H in Ha. rewrite Ha in Hb. now injection Hb.
Qed.

Lemma uint_no_dash :
  forall d, forallb (fun c => negb (N.eqb c 45))
              (lit (NilEmpty.string_of_uint d)) = true.
Proof.
  induction d; cbn [NilEmpty.string_of_uint]; try reflexivity;
    rewrite lit_cons; cbn [forallb]; rewrite IHd; reflexivity.
Qed.

Lemma split_at_dash :
  forall u v x y,
    forallb (fun c => negb (N.eqb c 45)) u = true ->
    forallb (fun c => negb (N.eqb c 45)) v = true ->
    u ++ 45%N :: x = v ++ 45%N :: y ->
    u = v.
Proof.
  induction u as [|a u IH]; intros [|b v] x y Hu Hv H; cbn [app] in H.
  - reflexivity.
  - injection H as Hb _. cbn [forallb] in Hv. rewrite <- Hb in Hv.
    discriminate.
  - injection H as Ha _. cbn [forallb] in Hu. rewrite Ha in Hu.
    discriminate.
  - injection H as Hab Ht. cbn [forallb] in Hu, Hv.
    apply andb_true_iff in Hu as [_ Hu]. apply andb_true_iff in Hv as [_ Hv].
    f_equal; [exact Hab|]. exact (IH v x y Hu Hv Ht).
Qed.

(** Two identifiers with the same text have the same index. *)
Lemma fresh_id_index :
  forall i j t t',
    dec i ++ lit "-" ++ dec t = dec j ++ lit "-" ++ dec t' -> i = j.
Proof.
  intros i j t t' H. apply dec_inj.
  apply (split_at_dash (dec i) (dec j) (dec t) (dec t')).
  - apply uint_no_dash.
  - apply uint_no_dash.
  - exact H.
Qed.

Lemma pushCurrent_ids :
  forall st,
    map id (pushCurrent st)
    = map id (fst st)
      ++ match snd st with Some c => [id c] | None => [] end.
Proof.
  intros [done [c|]]; unfold pushCurrent; cbn [fst snd].
  - now rewrite map_app.
  - now rewrite app_nil_r.
Qed.

(** An iteration keeps the identifiers, or adds one, made of the number of
    the sections so far and of the reading of the clock. *)
Lemma step_ids :
  forall now st line,
    map id (pushCurrent (Sectionizer.step now st line))
    = map id (pushCurrent st)
    \/ map id (pushCurrent (Sectionizer.step now st line))
       = map id (pushCurrent st)
         ++ [dec (N.of_nat (List.length (map id (pushCurrent st))))
             ++ lit "-" ++ dec now].
Proof.
  intros now st line. unfold Sectionizer.step.
  destruct (headingMatch line) as [g|].
  - right. rewrite pushCurrent_some. cbn [id]. rewrite map_app.
    cbn [map id]. unfold fresh_id. now rewrite length_map.
  - destruct st as [done [c|]]; cbn [snd fst].
    + left. rewrite !pushCurrent_ids. reflexivity.
    + right. rewrite !pushCurrent_ids. cbn [fst snd map id].
      unfold fresh_id. now rewrite app_nil_r, length_map.
Qed.

Lemma loop_ids :
  forall clock lines i st,
    (forall k x, nth_error (map id (pushCurrent st)) k = Some x ->
                 exists j, x = dec (N.of_nat k) ++ lit "-" ++ dec (clock j)) ->
    forall k x,
      nth_error (map id (pushCurrent (loop clock i lines st))) k = Some x ->
      exists j, x = dec (N.of_nat k) ++ lit "-" ++ dec (clock j).
Proof.
  induction lines as [|l lines IH]; intros i st H; [exact H|].
  cbn [loop]. apply IH. intros k x Hk.
  destruct (step_ids (clock i) st l) as [E|E]; rewrite E in Hk.
  - now apply H.
  - destruct (Nat.lt_ge_cases k (List.length (map id (pushCurrent st))))
      as [Hlt|Hge].
    + rewrite nth_error_app1 in Hk by exact Hlt. now apply H.
    + rewrite nth_error_app2 in Hk by exact Hge.
      destruct (k - List.length (map id (pushCurrent st))) as [|d] eqn:Ed.
      * cbn in Hk. injection Hk as <-. exists i.
        replace k with (List.length (map id (pushCurrent st))) by lia.
        reflexivity.
      * cbn in Hk. now destruct d.
Qed.

(** X3. Within one run the identifiers are pairwise different: the
    identifier of the section at position [k] is the decimal of [k], a dash,
    and the decimal of a reading of the clock. *)
Theorem identifiers_unique :
  forall (clock : nat -> N) (markdown : jsstring),
    NoDup (map id (splitMarkdownIntoSections clock markdown))
    /\ forall k s,
         nth_error (splitMarkdownIntoSections clock markdown) k = Some s ->
         exists j, id s = dec (N.of_nat k) ++ lit "-" ++ dec (clock j).
Proof.
  intros clock md.
  assert (H : forall k x,
             nth_error (map id (splitMarkdownIntoSections clock md)) k = Some x ->
             exists j, x = dec (N.of_nat k) ++ lit "-" ++ dec (clock j)).
  { unfold splitMarkdownIntoSections. apply loop_ids.
    intros k x Hk. destruct k; discriminate. }
  split.
  - apply NoDup_nth_error. intros i j Hi Hij.
    destruct (nth_error (map id (splitMarkdownIntoSections clock md)) i)
      as [x|] eqn:Ei.
    + destruct (H i x Ei) as [ti Hxi].
      destruct (H j x (eq_sym Hij)) as [tj Hxj].
      rewrite Hxi in Hxj. apply fresh_id_index in Hxj.
      now apply Nat2N.inj.
    + apply nth_error_None in Ei. lia.
  - intros k s Hk. apply (H k (id s)).
    rewrite nth_error_map, Hk. reflexivity.
Qed.

(** *** What a parse leaves in the store *)

Lemma step_blank :
  forall now st line,
    Forall (fun s => blank s = true) (pushCurrent st) ->
    Forall (fun s => blank s = true)
           (pushCurrent (Sectionizer.step now st line)).
Proof.
  intros now st line H. unfold Sectionizer.step.
  destruct (headingMatch line) as [g|].
  - rewrite pushCurrent_some. apply Forall_app. split; [exact H|].
    constructor; [reflexivity|constructor].
  - destruct st as [done [c|]]; cbn [snd fst].
    + rewrite pushCurrent_some in *. apply Forall_app in H as [Hd Hc].
      apply Forall_app. split; [exact Hd|].
      inversion Hc as [|? ? Hb _]; subst. constructor; [exact Hb|constructor].
    + rewrite pushCurrent_some. apply Forall_app. split; [exact H|].
      constructor; [reflexivity|constructor].
Qed.

Lemma loop_blank :
  forall clock lines i st,
    Forall (fun s => blank s = true) (pushCurrent st) ->
    Forall (fun s => blank s = true) (pushCurrent (loop clock i lines st)).
Proof.
  induction lines as [|l lines IH]; intros i st H; [exact H|].
  cbn [loop]. apply IH. now apply step_blank.
Qed.

(** X4. Parsing replaces the store by sections that carry no custom and no
    generated content, whatever the store held before; every body is
    trimmed, and every heading is trimmed and holds no line terminator. *)
Theorem parse_resets_store :
  forall (clock : nat -> N) (rawMarkdown : jsstring) (st : Editor),
    Forall (fun s =>
              code s = None /\ mermaidCode s = None
              /\ trim (body s) = body s
              /\ trim (heading s) = heading s
              /\ no_terminator (heading s) = true)
           (ed_sections (handleParse clock rawMarkdown st)).
Proof.
  intros clock md st. cbn [handleParse ed_sections].
  pose proof (segment_wf clock md) as Hwf.
  assert (Hb : Forall (fun s => blank s = true)
                      (splitMarkdownIntoSections clock md)).
  { unfold splitMarkdownIntoSections. apply loop_blank. constructor. }
  rewrite Forall_forall in *. intros s Hs.
  specialize (Hwf s Hs). specialize (Hb s Hs).
  destruct Hwf as [[Ht Hn] Hbody]. unfold blank in Hb.
  destruct (code s), (mermaidCode s); try discriminate.
  repeat split; assumption.
Qed.

(** *** The heading expression *)

Lemma spaces_then_text_sound :
  forall s g,
    spaces_then_text s = Some g ->
    exists w,
      s = w ++ g /\ w <> [] /\ forallb isWhiteSpace w = true
      /\ g <> [] /\ no_terminator g = true.
Proof.
  induction s as [|c s IH]; intros g H; [discriminate|].
  cbn [spaces_then_text] in H.
  destruct (isWhiteSpace c) eqn:Hc; [|discriminate].
  destruct (spaces_then_text s) as [g'|] eqn:E.
  - injection H as <-. destruct (IH g' eq_refl) as [w [Hs [_ [Hw [Hg Hn]]]]].
    exists (c :: w). cbn [app forallb]. rewrite Hs, Hc, Hw.
    repeat split; try assumption; discriminate.
  - destruct (dot_plus_end s) eqn:D; [|discriminate]. injection H as <-.
    exists [c]. cbn [app forallb]. rewrite Hc.
    unfold dot_plus_end in D. destruct s; [discriminate|].
    repeat split; try discriminate. exact D.
Qed.

Lemma hashes_then_sound :
  forall n s g,
    hashes_then n s = Some g ->
    exists k rest,
      1 <= k <= n /\ s = repeat 35%N k ++ rest
      /\ spaces_then_text rest = Some g.
Proof.
  induction n as [|n IH]; intros s g H; [discriminate|].
  cbn [hashes_then] in H. destruct s as [|c s]; [discriminate|].
  destruct (N.eqb_spec c 35) as [->|]; [|discriminate].
  destruct (hashes_then n s) as [g'|] eqn:E.
  - injection H as <-. destruct (IH s g' E) as [k [rest [Hk [Hs Hr]]]].
    exists (S k), rest. cbn [repeat app]. rewrite Hs.
    repeat split; try assumption; lia.
  - exists 1, s. repeat split; try assumption; lia.
Qed.

Lemma trim_app_ws_front :
  forall w s, forallb isWhiteSpace w = true -> trim (w ++ s) = trim s.
Proof.
  intros w s H. unfold trim, trimStart. f_equal.
  induction w as [|c w IH]; [reflexivity|].
  cbn [forallb] in H. apply andb_true_iff in H as [Hc Hw].
  cbn [app dropWhile]. rewrite Hc. now apply IH.
Qed.

(** X5. A line that the heading expression matches is one to six hashes,
    then one or more white-space code units, then a text group that is not
    empty and holds no line terminator; the heading of the section is the
    trimmed rest of the line after the hashes. *)
Theorem heading_line_shape :
  forall line g : jsstring,
    headingMatch line = Some g ->
    exists (k : nat) (w : jsstring),
      1 <= k <= 6
      /\ line = repeat 35%N k ++ w ++ g
      /\ w <> [] /\ forallb isWhiteSpace w = true
      /\ g <> [] /\ no_terminator g = true
      /\ trim g = trim (w ++ g).
Proof.
  intros line g H. unfold headingMatch in H.
  destruct (hashes_then_sound 6 line g H) as [k [rest [Hk [Hl Hr]]]].
  destruct (spaces_then_text_sound rest g Hr) as [w [Hw [Hne [Hws [Hg Hn]]]]].
  exists k, w. rewrite Hl, Hw.
  repeat split; try assumption; try lia.
  symmetry. now apply trim_app_ws_front.
Qed.

Lemma heading_line_shape_witness :
  exists (k : nat) (w : jsstring),
    1 <= k <= 6
    /\ lit "##  Title " = repeat 35%N k ++ w ++ lit "Title "
    /\ w <> [] /\ forallb isWhiteSpace w = true
    /\ lit "Title " <> [] /\ no_terminator (lit "Title ") = true
    /\ trim (lit "Title ") = trim (w ++ lit "Title ").
Proof.
  apply (heading_line_shape (lit "##  Title ") (lit "Title ")).
  reflexivity.
Defined.

Lemma spaces_then_text_complete :
  forall w g,
    w <> [] -> forallb isWhiteSpace w = true ->
    g <> [] -> no_terminator g = true ->
    exists g', spaces_then_text (w ++ g) = Some g'.
Proof.
  induction w as [|c w IH]; intros g Hne Hw Hg Hn; [contradiction|].
  cbn [forallb] in Hw. apply andb_true_iff in Hw as [Hc Hw].
  cbn [app spaces_then_text]. rewrite Hc.
  destruct w as [|d w'].
  - cbn [app]. destruct (spaces_then_text g) as [g'|]; [now exists g'|].
    unfold dot_plus_end. destruct g; [contradiction|].
    unfold no_terminator in Hn. rewrite Hn. now eexists.
  - destruct (IH g) as [g' Hg']; try assumption; [discriminate|].
    rewrite Hg'. now exists g'.
Qed.

(** X6. Conversely, one to six hashes, then white space, then a text that
    is not empty and holds no line terminator is a heading line, and the
    heading it opens is the trimmed text: the hashes and the white space
    around the text never reach the heading. *)
Theorem heading_line_accepted :
  forall (k : nat) (w g : jsstring),
    1 <= k <= 6 ->
    1 <= List.length w -> forallb isWhiteSpace w = true ->
    1 <= List.length g -> no_terminator g = true ->
    is_heading_line (repeat 35%N k ++ w ++ g) = true
    /\ opened_heading (repeat 35%N k ++ w ++ g) = [trim g].
Proof.
  intros k w g Hk Hlw Hw Hlg Hn.
  assert (Hne : w <> []) by (destruct w; [simpl in Hlw; lia|discriminate]).
  assert (Hg : g <> []) by (destruct g; [simpl in Hlg; lia|discriminate]).
  destruct (spaces_then_text_complete w g Hne Hw Hg Hn) as [g' Hg'].
  assert (Hm : headingMatch (repeat 35%N k ++ w ++ g) = Some g').
  { unfold headingMatch. destruct w as [|c w']; [contradiction|].
    assert (Hc : N.eqb c 35 = false).
    { cbn [forallb] in Hw. apply andb_true_iff in Hw as [Hc _].
      destruct (N.eqb_spec c 35) as [->|]; [|reflexivity].
      vm_compute in Hc. discriminate. }
    cbn [app]. rewrite hashes_then_run.
    - exact Hg'.
    - exact Hk.
    - now apply hashes_then_not_hash.
    - intro m. now apply hashes_then_not_hash. }
  unfold is_heading_line, opened_heading. rewrite Hm. split; [reflexivity|].
  destruct (spaces_then_text_sound (w ++ g) g' Hg')
    as [w2 [Hs [_ [Hw2 _]]]].
  f_equal. rewrite <- (trim_app_ws_front w2 g' Hw2), <- Hs.
  now apply trim_app_ws_front.
Qed.

Lemma heading_line_accepted_witness :
  is_heading_line (repeat 35%N 3 ++ [9%N; 32%N] ++ lit "  A b  ") = true
  /\ opened_heading (repeat 35%N 3 ++ [9%N; 32%N] ++ lit "  A b  ")
     = [trim (lit "  A b  ")].
Proof.
  apply (heading_line_accepted 3 [9%N; 32%N] (lit "  A b  ")).
  - lia.
  - simpl. lia.
  - reflexivity.
  - simpl. lia.
  - reflexivity.
Defined.

Lemma repeat_hash_nth :
  forall k i x, i < k -> nth_error (repeat 35%N k ++ x) i = Some 35%N.
Proof.
  induction k as [|k IH]; intros i x H; [lia|].
  destruct i as [|i]; [reflexivity|].
  cbn [repeat app nth_error]. apply IH. lia.
Qed.

(** X7. A line that starts with seven or more hashes is no heading line,
    whatever follows; nor is a line whose hashes, if any, are followed by a
    code unit that is neither a hash nor white space. *)
Theorem not_a_heading_line :
  forall (k j : nat) (rest : jsstring) (c : N),
    7 <= k ->
    isWhiteSpace c = false ->
    N.eqb c 35 = false ->
    headingMatch (repeat 35%N k ++ rest) = None
    /\ headingMatch (repeat 35%N j ++ c :: rest) = None.
Proof.
  intros k j rest c Hk Hc Hc35. split.
  - destruct (headingMatch (repeat 35%N k ++ rest)) as [g|] eqn:E;
      [|reflexivity].
    exfalso. destruct (hashes_then_sound 6 _ g E) as [i [r [Hi [Hl Hr]]]].
    destruct (spaces_then_text_sound r g Hr) as [w [Hw [Hne [Hws _]]]].
    destruct w as [|d w']; [contradiction|].
    assert (Hn : nth_error (repeat 35%N k ++ rest) i = Some 35%N)
      by (apply repeat_hash_nth; lia).
    rewrite Hl, Hw in Hn. rewrite nth_error_app2 in Hn
      by (rewrite repeat_length; lia).
    rewrite repeat_length, Nat.sub_diag in Hn. cbn in Hn.
    injection Hn as ->. cbn [forallb] in Hws. vm_compute in Hws.
    discriminate.
  - destruct (headingMatch (repeat 35%N j ++ c :: rest)) as [g|] eqn:E;
      [|reflexivity].
    exfalso. destruct (hashes_then_sound 6 _ g E) as [i [r [Hi [Hl Hr]]]].
    destruct (spaces_then_text_sound r g Hr) as [w [Hw [Hne [Hws _]]]].
    destruct w as [|d w']; [contradiction|].
    cbn [forallb] in Hws. apply andb_true_iff in Hws as [Hd _].
    assert (Hd35 : d <> 35%N) by (intros ->; vm_compute in Hd; discriminate).
    destruct (Nat.lt_trichotomy i j) as [Hlt|[Heq|Hgt]].
    + assert (Hn : nth_error (repeat 35%N j ++ c :: rest) i = Some 35%N)
        by (apply repeat_hash_nth; lia).
      rewrite Hl, Hw in Hn. rewrite nth_error_app2 in Hn
        by (rewrite repeat_length; lia).
      rewrite repeat_length, Nat.sub_diag in Hn. cbn in Hn.
      injection Hn as ->. contradiction.
    + subst i. apply app_inv_head in Hl. rewrite Hw in Hl.
      cbn [app] in Hl. injection Hl as -> _. congruence.
    + assert (Hn : nth_error (repeat 35%N i ++ r) j = Some 35%N)
        by (apply repeat_hash_nth; lia).
      rewrite <- Hl in Hn. rewrite nth_error_app2 in Hn
        by (rewrite repeat_length; lia).
      rewrite repeat_length, Nat.sub_diag in Hn. cbn in Hn.
      injection Hn as ->. rewrite N.eqb_refl in Hc35. discriminate.
Qed.

Lemma not_a_heading_line_witness :
  headingMatch (repeat 35%N 7 ++ lit " Title") = None
  /\ headingMatch (repeat 35%N 2 ++ 84%N :: lit " Title") = None.
Proof.
  apply (not_a_heading_line 7 2 (lit " Title") 84%N).
  - lia.
  - reflexivity.
  - reflexivity.
Defined.

(** *** Line endings *)

Lemma with_crlf_cons :
  forall c s,
    with_crlf (c :: s)
    = if N.eqb c LF then CR :: LF :: with_crlf s else c :: with_crlf s.
Proof.
  intros c s. unfold with_crlf. cbn [flat_map].
  destruct (N.eqb c LF); reflexivity.
Qed.

Lemma with_crlf_head :
  forall s d r, with_crlf s = d :: r -> N.eqb d LF = false.
Proof.
  intros [|c s] d r H; [discriminate|].
  rewrite with_crlf_cons in H. destruct (N.eqb c LF) eqn:E.
  - now injection H as <- _.
  - injection H as <- _. exact E.
Qed.

Lemma split_lines_with_crlf :
  forall s, has_crlf s = false -> split_lines (with_crlf s) = split_lines s.
Proof.
  induction s as [|c s IH]; intro H; [reflexivity|].
  pose proof (has_crlf_tail c s H) as Hs. specialize (IH Hs).
  rewrite with_crlf_cons. destruct (N.eqb c LF) eqn:Ec.
  - apply N.eqb_eq in Ec. subst c.
    rewrite split_lines_cons2 by reflexivity.
    change (N.eqb CR CR && N.eqb LF LF) with true. cbn iota.
    now rewrite split_lines_LF, IH.
  - destruct s as [|d s'].
    + reflexivity.
    + destruct (with_crlf (d :: s')) as [|e r] eqn:Ew.
      * rewrite with_crlf_cons in Ew. destruct (N.eqb d LF); discriminate.
      * rewrite !split_lines_cons2 by exact Ec.
        rewrite (with_crlf_head _ _ _ Ew), andb_false_r.
        cbn [has_crlf] in H. apply orb_false_iff in H as [H _].
        rewrite H. now rewrite IH.
Qed.

(** X8. Line endings do not matter: a text whose lines end with a line
    feed gives the same sections, identifiers included, when every line
    feed is preceded by a carriage return. *)
Theorem crlf_same_sections :
  forall (clock : nat -> N) (markdown : jsstring),
    has_crlf markdown = false ->
    splitMarkdownIntoSections clock (with_crlf markdown)
    = splitMarkdownIntoSections clock markdown.
Proof.
  intros clock md H. unfold splitMarkdownIntoSections.
  now rewrite split_lines_with_crlf.
Qed.

Lemma crlf_same_sections_witness :
  splitMarkdownIntoSections (fun _ => 0%N)
    (with_crlf (lit "intro" ++ [LF] ++ lit "# H" ++ [LF] ++ lit "body"))
  = splitMarkdownIntoSections (fun _ => 0%N)
      (lit "intro" ++ [LF] ++ lit "# H" ++ [LF] ++ lit "body").
Proof.
  apply (crlf_same_sections (fun _ => 0%N)
           (lit "intro" ++ [LF] ++ lit "# H" ++ [LF] ++ lit "body")).
  reflexivity.
Defined.

(** ** Section store *)

Lemma patch_absent :
  forall sid t l,
    find_section sid l = None -> patch sid t l = l /\ patch_code sid t l = l.
Proof.
  intros sid t l. unfold find_section, patch, patch_code.
  induction l as [|s l IH]; intro H; [split; reflexivity|].
  cbn [find] in H. destruct (str_eqb (id s) sid) eqn:E; [discriminate|].
  destruct (IH H) as [H1 H2]. cbn [map]. rewrite E.
  split; f_equal; assumption.
Qed.

(** X9. Writing to an identifier that no section has leaves the store as
    it is: saving the editor, and settling a generation, for a section that
    is no longer there; and a trigger for such a section starts nothing. *)
Theorem write_unknown_section :
  forall (l : list Section) (tempCode : jsstring) (g : State)
         (sectionId : jsstring) (result : option jsstring),
    find_section sectionId l = None ->
    find_section sectionId (sections g) = None ->
    ed_sections (handleSaveCode (mkEditor l (Some sectionId) tempCode)) = l
    /\ sections (settle g sectionId result) = sections g
    /\ click g sectionId = g.
Proof.
  intros l t g sid result Hs Hg. repeat split.
  - unfold handleSaveCode. cbn [editingSectionId ed_sections].
    destruct sid as [|c r]; [reflexivity|]. cbn [ed_sections Store.tempCode].
    now apply patch_absent.
  - unfold settle. cbn [sections]. destruct result; [|reflexivity].
    now apply patch_absent.
  - unfold click, start. rewrite Hg. now destruct (disabled g sid).
Qed.

Lemma write_unknown_section_witness :
  ed_sections
    (handleSaveCode (mkEditor (sections two_sections) (Some (lit "9-9")) (lit "<p>")))
  = sections two_sections
  /\ sections (settle two_sections (lit "9-9") (Some (lit "graph TD")))
     = sections two_sections
  /\ click two_sections (lit "9-9") = two_sections.
Proof.
  apply (write_unknown_section (sections two_sections) (lit "<p>")
           two_sections (lit "9-9") (Some (lit "graph TD"))).
  - reflexivity.
  - reflexivity.
Defined.

Lemma patch_frame :
  forall sid t l,
    map id (patch sid t l) = map id l
    /\ map heading (patch sid t l) = map heading l
    /\ map body (patch sid t l) = map body l
    /\ map code (patch sid t l) = map code l.
Proof.
  intros sid t l. unfold patch.
  induction l as [|s l [H1 [H2 [H3 H4]]]]; [repeat split|].
  cbn [map]. destruct (str_eqb (id s) sid); cbn [id heading body code];
    rewrite H1, H2, H3, H4; repeat split.
Qed.

Lemma patch_code_frame :
  forall sid t l,
    map id (patch_code sid t l) = map id l
    /\ map heading (patch_code sid t l) = map heading l
    /\ map body (patch_code sid t l) = map body l
    /\ map mermaidCode (patch_code sid t l) = map mermaidCode l.
Proof.
  intros sid t l. unfold patch_code.
  induction l as [|s l [H1 [H2 [H3 H4]]]]; [repeat split|].
  cbn [map]. destruct (str_eqb (id s) sid);
    cbn [id heading body mermaidCode];
    rewrite H1, H2, H3, H4; repeat split.
Qed.

Lemma patch_code_codes :
  forall sid t l,
    map code (patch_code sid t l)
    = map (fun s => if str_eqb (id s) sid then Some t else code s) l.
Proof.
  intros sid t l. unfold patch_code. rewrite map_map.
  apply map_ext. intro s. now destruct (str_eqb (id s) sid).
Qed.

(** X10. Saving the editor writes one field and nothing else: the
    sections keep their number, order, identifiers, headings, bodies and
    diagram markup; the custom content of a section with the edited
    identifier becomes the text of the editor, and that of every other
    section stays as it is. *)
Theorem save_writes_one_field :
  forall (l : list Section) (sectionId tempCode : jsstring),
    str_eqb sectionId [] = false ->
    map id (ed_sections (handleSaveCode (mkEditor l (Some sectionId) tempCode)))
    = map id l
    /\ map heading
         (ed_sections (handleSaveCode (mkEditor l (Some sectionId) tempCode)))
       = map heading l
    /\ map body
         (ed_sections (handleSaveCode (mkEditor l (Some sectionId) tempCode)))
       = map body l
    /\ map mermaidCode
         (ed_sections (handleSaveCode (mkEditor l (Some sectionId) tempCode)))
       = map mermaidCode l
    /\ map code
         (ed_sections (handleSaveCode (mkEditor l (Some sectionId) tempCode)))
       = map (fun s => if str_eqb (id s) sectionId then Some tempCode else code s)
             l.
Proof.
  intros l sid t Hne.
  assert (Hs : ed_sections (handleSaveCode (mkEditor l (Some sid) t))
               = patch_code sid t l).
  { unfold handleSaveCode. cbn [editingSectionId].
    destruct sid; [discriminate|reflexivity]. }
  rewrite Hs. destruct (patch_code_frame sid t l) as [H1 [H2 [H3 H4]]].
  repeat split; try assumption. apply patch_code_codes.
Qed.

Lemma save_writes_one_field_witness :
  map id
    (ed_sections
       (handleSaveCode (mkEditor (sections two_sections) (Some id_B) (lit "<p>"))))
  = map id (sections two_sections)
  /\ map heading
       (ed_sections
          (handleSaveCode (mkEditor (sections two_sections) (Some id_B) (lit "<p>"))))
     = map heading (sections two_sections)
  /\ map body
       (ed_sections
          (handleSaveCode (mkEditor (sections two_sections) (Some id_B) (lit "<p>"))))
     = map body (sections two_sections)
  /\ map mermaidCode
       (ed_sections
          (handleSaveCode (mkEditor (sections two_sections) (Some id_B) (lit "<p>"))))
     = map mermaidCode (sections two_sections)
  /\ map code
       (ed_sections
          (handleSaveCode (mkEditor (sections two_sections) (Some id_B) (lit "<p>"))))
     = map (fun s => if str_eqb (id s) id_B then Some (lit "<p>") else code s)
           (sections two_sections).
Proof.
  apply (save_writes_one_field (sections two_sections) id_B (lit "<p>")).
  reflexivity.
Defined.

Lemma find_patch_code :
  forall sid t l s,
    find_section sid l = Some s ->
    find_section sid (patch_code sid t l)
    = Some (mkSection (id s) (heading s) (body s) (Some t) (mermaidCode s)).
Proof.
  intros sid t l s. unfold find_section, patch_code.
  induction l as [|x l IH]; intro H; [discriminate|].
  cbn [find map] in *. destruct (str_eqb (id x) sid) eqn:E.
  - injection H as <-. cbn [id]. now rewrite E.
  - rewrite E. now apply IH.
Qed.

(** X11. What is saved is what the editor shows when it is opened again:
    after a save for a section that exists, opening the editor for that
    section loads the saved text, and the save closes the editor. *)
Theorem save_then_open :
  forall (l : list Section) (sectionId text : jsstring) (s : Section),
    str_eqb sectionId [] = false ->
    find_section sectionId l = Some s ->
    tempCode
      (handleOpenEditor (handleSaveCode (mkEditor l (Some sectionId) text))
                        sectionId)
    = text
    /\ editingSectionId (handleSaveCode (mkEditor l (Some sectionId) text))
       = None.
Proof.
  intros l sid t s Hne Hf.
  assert (Hs : handleSaveCode (mkEditor l (Some sid) t)
               = mkEditor (patch_code sid t l) None t).
  { unfold handleSaveCode. cbn [editingSectionId].
    destruct sid; [discriminate|reflexivity]. }
  rewrite Hs. split; [|reflexivity].
  unfold handleOpenEditor. cbn [ed_sections tempCode].
  now rewrite (find_patch_code sid t l s Hf).
Qed.

Lemma save_then_open_witness :
  tempCode
    (handleOpenEditor
       (handleSaveCode (mkEditor (sections two_sections) (Some id_A) (lit "<p>")))
       id_A)
  = lit "<p>"
  /\ editingSectionId
       (handleSaveCode (mkEditor (sections two_sections) (Some id_A) (lit "<p>")))
     = None.
Proof.
  apply (save_then_open (sections two_sections) id_A (lit "<p>")
           (mkSection id_A (lit "A") [] None None)).
  - reflexivity.
  - reflexivity.
Defined.

Lemma find_section_absent :
  forall sid l, ~ In sid (map id l) -> find_section sid l = None.
Proof.
  intros sid l. unfold find_section.
  induction l as [|s l IH]; intro H; [reflexivity|].
  cbn [find]. destruct (str_eqb (id s) sid) eqn:E.
  - apply str_eqb_eq in E. exfalso. apply H. now left.
  - apply IH. intro Hin. apply H. now right.
Qed.

Lemma defaultBlankSnippet_present : present (Some defaultBlankSnippet) = true.
Proof. vm_compute. reflexivity. Qed.

Lemma preview_default :
  forall m, srcDoc m (Some defaultBlankSnippet) = srcDoc m None.
Proof.
  intro m. unfold srcDoc. rewrite defaultBlankSnippet_present.
  reflexivity.
Qed.

Lemma open_save_previews :
  forall sid l,
    NoDup (map id l) ->
    map preview
      (patch_code sid
         (match find_section sid l with
          | Some sec =>
              match code sec with
              | Some c => c
              | None => defaultBlankSnippet
              end
          | None => defaultBlankSnippet
          end) l)
    = map preview l.
Proof.
  intros sid l. induction l as [|s l IH]; intro Hnd; [reflexivity|].
  cbn [map] in Hnd. inversion Hnd as [|? ? Hnotin Hnd']; subst.
  unfold find_section. cbn [find]. fold (find_section sid l).
  destruct (str_eqb (id s) sid) eqn:E.
  - apply str_eqb_eq in E.
    assert (Habs : find_section sid l = None).
    { apply find_section_absent. now rewrite <- E. }
    unfold patch_code at 1. cbn [map]. fold (patch_code sid
      (match code s with Some c => c | None => defaultBlankSnippet end) l).
    rewrite <- E at 1. rewrite str_eqb_refl.
    destruct (patch_absent sid
                (match code s with Some c => c | None => defaultBlankSnippet end)
                l Habs) as [_ ->].
    f_equal. unfold preview. cbn [mermaidCode code].
    destruct (code s); [reflexivity|apply preview_default].
  - unfold patch_code at 1. cbn [map]. rewrite E.
    f_equal. apply (IH Hnd').
Qed.

(** X12. Opening the editor and saving without a change leaves every
    preview as it was, when no two sections share an identifier: a section
    without custom content gets the placeholder as its content, which is
    what its canvas showed before. *)
Theorem open_save_keeps_previews :
  forall (st : Editor) (sectionId : jsstring),
    NoDup (map id (ed_sections st)) ->
    map preview (ed_sections (handleSaveCode (handleOpenEditor st sectionId)))
    = map preview (ed_sections st).
Proof.
  intros st sid Hnd. unfold handleOpenEditor, handleSaveCode.
  cbn [editingSectionId ed_sections tempCode].
  destruct sid as [|c r]; [reflexivity|]. cbn [ed_sections].
  now apply open_save_previews.
Qed.

Lemma open_save_keeps_previews_witness :
  map preview
    (ed_sections
       (handleSaveCode
          (handleOpenEditor (mkEditor (sections two_sections) None []) id_B)))
  = map preview (ed_sections (mkEditor (sections two_sections) None [])).
Proof.
  apply (open_save_keeps_previews (mkEditor (sections two_sections) None [])
           id_B).
  repeat constructor; simpl; intuition discriminate.
Defined.

(** X13. In a parsed document an edit reaches one section only: saving
    the editor for the section at position [k] gives that section the text
    of the editor as its custom content and leaves the section at every
    other position as it is. *)
Theorem edit_reaches_one_section :
  forall (clock : nat -> N) (markdown text : jsstring) (k j : nat)
         (s s' : Section),
    nth_error (splitMarkdownIntoSections clock markdown) k = Some s ->
    nth_error (splitMarkdownIntoSections clock markdown) j = Some s' ->
    Nat.eqb j k = false ->
    nth_error
      (ed_sections
         (handleSaveCode
            (mkEditor (splitMarkdownIntoSections clock markdown)
                      (Some (id s)) text)))
      k
    = Some (mkSection (id s) (heading s) (body s) (Some text) (mermaidCode s))
    /\ nth_error
         (ed_sections
            (handleSaveCode
               (mkEditor (splitMarkdownIntoSections clock markdown)
                         (Some (id s)) text)))
         j
       = Some s'.
Proof.
  intros clock md t k j s s' Hk Hj Hjk.
  pose proof (loop_ids clock (split_lines md) 0 ([], None)) as Hids.
  assert (Hnum : forall i x,
             nth_error (map id (splitMarkdownIntoSections clock md)) i = Some x ->
             exists q, x = dec (N.of_nat i) ++ lit "-" ++ dec (clock q)).
  { apply Hids. intros i x Hi. destruct i; discriminate. }
  assert (Hidk : exists q, id s = dec (N.of_nat k) ++ lit "-" ++ dec (clock q)).
  { apply Hnum. now rewrite nth_error_map, Hk. }
  assert (Hidj : exists q, id s' = dec (N.of_nat j) ++ lit "-" ++ dec (clock q)).
  { apply Hnum. now rewrite nth_error_map, Hj. }
  destruct Hidk as [qk Hidk]. destruct Hidj as [qj Hidj].
  assert (Hs : ed_sections
                 (handleSaveCode
                    (mkEditor (splitMarkdownIntoSections clock md)
                              (Some (id s)) t))
               = patch_code (id s) t (splitMarkdownIntoSections clock md)).
  { unfold handleSaveCode. cbn [editingSectionId]. rewrite Hidk.
    destruct (dec (N.of_nat k)); reflexivity. }
  rewrite Hs. unfold patch_code. rewrite !nth_error_map, Hk, Hj.
  cbn [option_map]. rewrite str_eqb_refl. split; [reflexivity|].
  destruct (str_eqb (id s') (id s)) eqn:E; [|reflexivity].
  apply str_eqb_eq in E. rewrite Hidk, Hidj in E.
  apply fresh_id_index in E. apply Nat2N.inj in E.
  apply Nat.eqb_neq in Hjk. contradiction.
Qed.

Lemma edit_reaches_one_section_witness :
  nth_error
    (ed_sections
       (handleSaveCode
          (mkEditor (splitMarkdownIntoSections (fun _ => 7%N)
                       (lit "# A" ++ [LF] ++ lit "# B"))
                    (Some (id (mkSection id_B (lit "B") [] None None)))
                    (lit "<p>"))))
    1
  = Some (mkSection (id (mkSection id_B (lit "B") [] None None))
                    (heading (mkSection id_B (lit "B") [] None None))
                    (body (mkSection id_B (lit "B") [] None None))
                    (Some (lit "<p>"))
                    (mermaidCode (mkSection id_B (lit "B") [] None None)))
  /\ nth_error
       (ed_sections
          (handleSaveCode
             (mkEditor (splitMarkdownIntoSections (fun _ => 7%N)
                          (lit "# A" ++ [LF] ++ lit "# B"))
                       (Some (id (mkSection id_B (lit "B") [] None None)))
                       (lit "<p>"))))
       0
     = Some (mkSection id_A (lit "A") [] None None).
Proof.
  apply (edit_reaches_one_section (fun _ => 7%N)
           (lit "# A" ++ [LF] ++ lit "# B") (lit "<p>") 1 0
           (mkSection id_B (lit "B") [] None None)
           (mkSection id_A (lit "A") [] None None)).
  - reflexivity.
  - reflexivity.
  - reflexivity.
Defined.

(** ** Stream decoder: what a line can add *)

Section DecoderLines.

Variable JSON_parse : jsstring -> option json.
Variable number_truthy : jsstring -> bool.
Variable number_toString : jsstring -> jsstring.

Local Abbreviation handle_line :=
  (handle_line JSON_parse number_truthy number_toString).
Local Abbreviation decode := (decode JSON_parse number_truthy number_toString).

(** X14. Decoding composes with the arrival of chunks: the payload of a
    stream is the payload of its first chunks followed by the payload of the
    chunks that come after; what was decoded is never changed by a later
    chunk. *)
Theorem decode_app :
  forall before after : list jsstring,
    decode (before ++ after) = decode before ++ decode after.
Proof.
  intros c1 c2. rewrite !decode_deltas.
  now rewrite flat_map_app, map_app, concat_app.
Qed.

(** X15. Only a text-delta object adds to the payload: a line that changes
    the payload starts with the marker, and its remainder parses to an
    object whose member [type] is the string text-delta and whose member
    [textDelta] is truthy. *)
Theorem only_text_delta_adds :
  forall payload line : jsstring,
    str_eqb (handle_line payload line) payload = false ->
    startsWith (lit "0:") line = true
    /\ exists (ms : list (jsstring * json)) (td : json),
         JSON_parse (slice 2 line) = Some (JObject ms)
         /\ lookup (lit "type") ms = Some (JString (lit "text-delta"))
         /\ lookup (lit "textDelta") ms = Some td
         /\ truthy number_truthy (Some td) = true.
Proof.
  intros payload line H. unfold Decoder.handle_line, try_block in H.
  destruct (startsWith (lit "0:") line);
    [|rewrite str_eqb_refl in H; discriminate].
  split; [reflexivity|].
  destruct (JSON_parse (slice 2 line)) as [data|];
    [|rewrite str_eqb_refl in H; discriminate].
  destruct data as [|b|l|t|items|ms]; cbn [get_property strict_eq_string] in H;
    try (rewrite str_eqb_refl in H; discriminate).
  destruct (lookup (lit "type") ms) as [ty|] eqn:Ety;
    cbn [strict_eq_string] in H;
    [|rewrite str_eqb_refl in H; discriminate].
  destruct ty as [|b|l|t|items|ms']; cbn [strict_eq_string] in H;
    try (rewrite str_eqb_refl in H; discriminate).
  destruct (str_eqb t (lit "text-delta")) eqn:Et;
    [|rewrite str_eqb_refl in H; discriminate].
  apply str_eqb_eq in Et. subst t.
  destruct (lookup (lit "textDelta") ms) as [td|] eqn:Etd;
    [|rewrite str_eqb_refl in H; discriminate].
  destruct (truthy number_truthy (Some td)) eqn:Etr;
    [|rewrite str_eqb_refl in H; discriminate].
  exists ms, td. repeat split; assumption.
Qed.

(** X16. A line with the marker whose remainder parses to an object with
    the member [type] equal to text-delta and a string as the member
    [textDelta] adds exactly that string at the end of the payload (nothing
    when the string is empty). *)
Theorem text_delta_appended :
  forall (payload line : jsstring) (ms : list (jsstring * json))
         (fragment : jsstring),
    startsWith (lit "0:") line = true ->
    JSON_parse (slice 2 line) = Some (JObject ms) ->
    lookup (lit "type") ms = Some (JString (lit "text-delta")) ->
    lookup (lit "textDelta") ms = Some (JString fragment) ->
    handle_line payload line = payload ++ fragment.
Proof.
  intros payload line ms t Hs Hp Hty Htd.
  unfold Decoder.handle_line, try_block. rewrite Hs, Hp.
  cbn [get_property]. rewrite Hty. cbn [strict_eq_string].
  rewrite str_eqb_refl, Htd. cbn [truthy toString].
  destruct t as [|c t']; cbn [str_eqb negb].
  - now rewrite app_nil_r.
  - reflexivity.
Qed.

End DecoderLines.

Lemma only_text_delta_adds_witness :
  startsWith (lit "0:") (delta_line "Hi") = true
  /\ exists (ms : list (jsstring * json)) (td : json),
       JSON.parse (slice 2 (delta_line "Hi")) = Some (JObject ms)
       /\ lookup (lit "type") ms = Some (JString (lit "text-delta"))
       /\ lookup (lit "textDelta") ms = Some td
       /\ truthy integer_truthy (Some td) = true.
Proof.
  apply (only_text_delta_adds JSON.parse integer_truthy integer_toString
           (lit "a") (delta_line "Hi")).
  vm_compute. reflexivity.
Defined.

Lemma text_delta_appended_witness :
  handle_line JSON.parse integer_truthy integer_toString (lit "a")
    (delta_line "Hi")
  = lit "a" ++ lit "Hi".
Proof.
  apply (text_delta_appended JSON.parse integer_truthy integer_toString
           (lit "a") (delta_line "Hi")
           [(lit "type", JString (lit "text-delta"));
            (lit "textDelta", JString (lit "Hi"))]
           (lit "Hi")).
  - reflexivity.
  - vm_compute. reflexivity.
  - reflexivity.
  - reflexivity.
Defined.

(** ** Fence clean-up: fixed points and size *)

Lemma remove_all_length :
  forall pat fuel s, List.length (remove_all fuel pat s) <= List.length s.
Proof.
  intros pat. induction fuel as [|f IH]; intro s; [simpl; lia|].
  destruct s as [|c r]; [simpl; lia|].
  cbn [remove_all]. destruct (startsWith pat (c :: r)).
  - specialize (IH (skip_nl (skipn (List.length pat) (c :: r)))).
    pose proof (skip_nl_length (skipn (List.length pat) (c :: r))) as Hs.
    rewrite length_skipn in Hs. lia.
  - specialize (IH r). simpl. lia.
Qed.

(** X17. Cleaning up twice is cleaning up once, in both copies of the
    clean-up; and the cleaned text is never longer than the payload. *)
Theorem cleanup_idempotent :
  forall s : jsstring,
    cleanup (cleanup s) = cleanup s
    /\ cleanup_chat (cleanup_chat s) = cleanup_chat s
    /\ List.length (cleanup s) <= List.length s
    /\ List.length (cleanup_chat s) <= List.length s.
Proof.
  intro s.
  assert (Hf : forall x, includes fence x = false -> trim x = x ->
                         cleanup x = x /\ cleanup_chat x = x).
  { intros x Hx Ht. unfold cleanup, cleanup_chat, replace_fence.
    rewrite !(remove_all_absent (lit "```mermaid") _ x
                (includes_prefix fence (lit "mermaid") x Hx)).
    rewrite !(remove_all_absent (lit "```html") _ x
                (includes_prefix fence (lit "html") x Hx)).
    rewrite !(remove_all_absent fence _ x Hx). now rewrite Ht. }
  repeat split.
  - apply Hf.
    + unfold cleanup. apply trim_clean, replace_fence_clean.
    + unfold cleanup. apply trim_idempotent.
  - apply Hf.
    + unfold cleanup_chat. apply trim_clean, replace_fence_clean.
    + unfold cleanup_chat. apply trim_idempotent.
  - unfold cleanup, replace_fence.
    pose proof (trim_length
                  (remove_all
                     (S (List.length
                           (remove_all (S (List.length s)) (lit "```mermaid") s)))
                     fence
                     (remove_all (S (List.length s)) (lit "```mermaid") s))).
    pose proof (remove_all_length fence
                  (S (List.length
                        (remove_all (S (List.length s)) (lit "```mermaid") s)))
                  (remove_all (S (List.length s)) (lit "```mermaid") s)).
    pose proof (remove_all_length (lit "```mermaid") (S (List.length s)) s).
    lia.
  - unfold cleanup_chat, replace_fence.
    match goal with
    | |- List.length (trim (remove_all ?f1 fence (remove_all ?f2 ?p2 (remove_all ?f3 ?p3 s)))) <= _ =>
        pose proof (trim_length (remove_all f1 fence (remove_all f2 p2 (remove_all f3 p3 s))));
        pose proof (remove_all_length fence f1 (remove_all f2 p2 (remove_all f3 p3 s)));
        pose proof (remove_all_length p2 f2 (remove_all f3 p3 s));
        pose proof (remove_all_length p3 f3 s)
    end.
    lia.
Qed.

Lemma cleanup_without_fence_witness :
  cleanup ([LF] ++ lit "graph TD" ++ [LF] ++ lit "  A --> B `x` " ++ [LF])
  = trim ([LF] ++ lit "graph TD" ++ [LF] ++ lit "  A --> B `x` " ++ [LF])
  /\ cleanup_chat
       ([LF] ++ lit "graph TD" ++ [LF] ++ lit "  A --> B `x` " ++ [LF])
     = trim ([LF] ++ lit "graph TD" ++ [LF] ++ lit "  A --> B `x` " ++ [LF]).
Proof.
  apply (cleanup_without_fence
           ([LF] ++ lit "graph TD" ++ [LF] ++ lit "  A --> B `x` " ++ [LF])).
  reflexivity.
Defined.

(** ** Preview renderer: the document is never empty *)

(** X19. The canvas never gets an empty document: whatever the two
    fields hold, the document has at least one code unit, and it is one of
    the template around the markup, the custom content, or the
    placeholder. *)
Theorem preview_never_empty :
  forall mermaidCode animationCode : option jsstring,
    1 <= List.length (srcDoc mermaidCode animationCode)
    /\ (srcDoc mermaidCode animationCode
        = mermaid_head ++ text mermaidCode ++ mermaid_tail
        \/ srcDoc mermaidCode animationCode = text animationCode
        \/ srcDoc mermaidCode animationCode = defaultBlankSnippet).
Proof.
  intros m a. unfold srcDoc.
  destruct (present m) eqn:Em.
  - split; [|now left]. rewrite length_app.
    assert (H : 1 <= List.length mermaid_head) by (vm_compute; lia). lia.
  - destruct (present a) eqn:Ea.
    + split; [|right; now left].
      destruct a as [[|c a']|]; try discriminate. simpl. lia.
    + split; [|right; now right]. vm_compute. lia.
Qed.

(** ** Heuristic synthesizer: labels, branches, short bodies *)

Lemma truncate_length :
  forall n clean, List.length (truncate n clean) <= n + 3.
Proof.
  intros n clean. unfold truncate, substring0. rewrite length_app, length_firstn.
  destruct (Nat.ltb n (List.length clean)); simpl; lia.
Qed.

Ltac label_cases :=
  repeat match goal with
         | |- context [if ?b then _ else _] => destruct b
         end;
  try (vm_compute; lia); apply truncate_length.

Lemma step_label_length : forall s, List.length (step_label s) <= 23.
Proof. intro s. unfold step_label. label_cases. Qed.

Lemma component_label_length : forall s, List.length (component_label s) <= 18.
Proof. intro s. unfold component_label. label_cases. Qed.

Lemma point_label_length : forall s, List.length (point_label s) <= 18.
Proof. intro s. unfold point_label. label_cases. Qed.

Lemma concept_label_length : forall s, List.length (concept_label s) <= 23.
Proof. intro s. unfold concept_label. label_cases. Qed.

(** X20. Every node label is short: at most 23 code units for a step or a
    concept, at most 18 for a component or a comparison point, however long
    the sentence is. *)
Theorem labels_bounded :
  forall s : jsstring,
    List.length (step_label s) <= 23
    /\ List.length (component_label s) <= 18
    /\ List.length (point_label s) <= 18
    /\ List.length (concept_label s) <= 23.
Proof.
  intro s. repeat split.
  - apply step_label_length.
  - apply component_label_length.
  - apply point_label_length.
  - apply concept_label_length.
Qed.

Lemma cons_head_lengths :
  forall n c ls,
    Forall (fun p => List.length p <= n) ls ->
    Forall (fun p => List.length p <= S n) (cons_head c ls).
Proof.
  intros n c [|x r] H; cbn [cons_head].
  - constructor; [simpl; lia|constructor].
  - inversion H as [|? ? Hx Hr]; subst. constructor; [simpl; lia|].
    eapply Forall_impl; [|exact Hr]. intros p Hp. cbn beta in Hp. lia.
Qed.

Lemma split_sentences_lengths :
  forall s flag,
    Forall (fun p => List.length p <= List.length s)
           (split_sentences_aux flag s).
Proof.
  induction s as [|c s IH]; intro flag.
  - constructor; [simpl; lia|constructor].
  - cbn [split_sentences_aux List.length]. destruct (is_terminal c).
    + destruct flag.
      * eapply Forall_impl; [|apply IH]. intros p Hp. cbn beta in Hp. lia.
      * constructor; [simpl; lia|].
        eapply Forall_impl; [|apply IH]. intros p Hp. cbn beta in Hp. lia.
    + apply cons_head_lengths, IH.
Qed.

Lemma sentences_short :
  forall n body, List.length body <= n -> sentences n body = [].
Proof.
  intros n body H. unfold sentences, split_sentences.
  pose proof (split_sentences_lengths body false) as Hl.
  induction (split_sentences_aux false body) as [|p ps IH]; [reflexivity|].
  inversion Hl as [|? ? Hp Hps]; subst. cbn [filter].
  pose proof (trim_length p) as Ht.
  destruct (Nat.ltb_spec n (List.length (trim p))) as [Hlt|Hge]; [lia|].
  now apply IH.
Qed.

(** X21. A body of at most 15 code units has no sentence that qualifies:
    the diagram has no labelled node, only the root, and in the workflow
    branch the terminal node reached from the node B0 that nothing
    defines. *)
Theorem short_body_diagram :
  forall (toLowerCase : jsstring -> jsstring) (heading body : jsstring),
    List.length body <= 15 ->
    diagram toLowerCase heading body
    = if is_workflow toLowerCase body then
        root (lit "flowchart TD") heading
        ++ [LF] ++ lit "    B0 --> C[Complete]"
      else if is_system toLowerCase body then root (lit "graph TB") heading
      else if is_comparison toLowerCase body then root (lit "graph LR") heading
      else root (lit "flowchart TD") heading.
Proof.
  intros lower heading body H. unfold diagram, steps.
  rewrite (sentences_short 15 body H).
  rewrite (sentences_short 20 body) by lia.
  cbn [firstn map edges List.length app].
  destruct (is_workflow lower body); [reflexivity|].
  destruct (is_system lower body); [now rewrite app_nil_r|].
  destruct (is_comparison lower body); now rewrite app_nil_r.
Qed.

Lemma short_body_diagram_witness :
  diagram toLowerCase_ascii (lit "Plan") (lit "Our WORKFLOW.")
  = if is_workflow toLowerCase_ascii (lit "Our WORKFLOW.") then
      root (lit "flowchart TD") (lit "Plan")
      ++ [LF] ++ lit "    B0 --> C[Complete]"
    else if is_system toLowerCase_ascii (lit "Our WORKFLOW.")
         then root (lit "graph TB") (lit "Plan")
    else if is_comparison toLowerCase_ascii (lit "Our WORKFLOW.")
         then root (lit "graph LR") (lit "Plan")
    else root (lit "flowchart TD") (lit "Plan").
Proof.
  apply (short_body_diagram toLowerCase_ascii (lit "Plan") (lit "Our WORKFLOW.")).
  simpl. lia.
Defined.

(** X22. Outside the workflow branch the diagram is the root and at most
    four labelled edges from it, with no terminal node: an undirected graph
    of components when the content names a component, a system or an
    architecture; else a left-to-right graph of comparison points when it
    names a comparison; else a top-down flow chart of concepts. *)
Theorem other_diagrams :
  forall (toLowerCase : jsstring -> jsstring) (heading body : jsstring),
    is_workflow toLowerCase body = false ->
    exists (kind arrow : jsstring) (labels : list jsstring),
      diagram toLowerCase heading body
      = root kind heading
        ++ List.concat
             (map (edge_text arrow)
                (combine (seq 1 (List.length labels)) labels))
      /\ List.length labels <= 4
      /\ Forall (fun l => List.length l <= 23) labels
      /\ (kind, arrow)
         = (if is_system toLowerCase body then (lit "graph TB", lit "---")
            else if is_comparison toLowerCase body
                 then (lit "graph LR", lit "-->")
            else (lit "flowchart TD", lit "-->")).
Proof.
  intros lower heading body H. unfold diagram. rewrite H.
  destruct (is_system lower body); [|destruct (is_comparison lower body)].
  - exists (lit "graph TB"), (lit "---"),
           (map component_label (firstn 4 (sentences 15 body))).
    rewrite edges_numbered. cbn [Nat.add]. repeat split.
    + rewrite length_map, length_firstn. lia.
    + apply Forall_forall. intros l Hl. apply in_map_iff in Hl as [x [<- _]].
      pose proof (component_label_length x). lia.
  - exists (lit "graph LR"), (lit "-->"),
           (map point_label (firstn 3 (sentences 15 body))).
    rewrite edges_numbered. cbn [Nat.add]. repeat split.
    + rewrite length_map, length_firstn. lia.
    + apply Forall_forall. intros l Hl. apply in_map_iff in Hl as [x [<- _]].
      pose proof (point_label_length x). lia.
  - exists (lit "flowchart TD"), (lit "-->"),
           (map concept_label (firstn 3 (sentences 20 body))).
    rewrite edges_numbered. cbn [Nat.add]. repeat split.
    + rewrite length_map, length_firstn. lia.
    + apply Forall_forall. intros l Hl. apply in_map_iff in Hl as [x [<- _]].
      apply concept_label_length.
Qed.

Lemma other_diagrams_witness :
  exists (kind arrow : jsstring) (labels : list jsstring),
    diagram toLowerCase_ascii (lit "Stack")
      (lit "The System has a data store and a web interface. Short.")
    = root kind (lit "Stack")
      ++ List.concat
           (map (edge_text arrow)
              (combine (seq 1 (List.length labels)) labels))
    /\ List.length labels <= 4
    /\ Forall (fun l => List.length l <= 23) labels
    /\ (kind, arrow)
       = (if is_system toLowerCase_ascii
               (lit "The System has a data store and a web interface. Short.")
          then (lit "graph TB", lit "---")
          else if is_comparison toLowerCase_ascii
                    (lit "The System has a data store and a web interface. Short.")
               then (lit "graph LR", lit "-->")
          else (lit "flowchart TD", lit "-->")).
Proof.
  apply (other_diagrams toLowerCase_ascii (lit "Stack")
           (lit "The System has a data store and a web interface. Short.")).
  vm_compute. reflexivity.
Defined.

(** ** Generation without a service *)

Lemma patch_mermaid_codes :
  forall sid t l,
    map mermaidCode (patch sid t l)
    = map (fun s => if str_eqb (id s) sid then Some t else mermaidCode s) l.
Proof.
  intros sid t l. unfold patch. rewrite map_map.
  apply map_ext. intro s. now destruct (str_eqb (id s) sid).
Qed.

Lemma patch_content :
  forall sid t l, map content (patch sid t l) = map content l.
Proof.
  intros sid t l. unfold patch. rewrite map_map.
  apply map_ext. intro s. now destruct (str_eqb (id s) sid).
Qed.

Lemma find_patch :
  forall sid t l s,
    find_section sid l = Some s ->
    find_section sid (patch sid t l)
    = Some (mkSection (id s) (heading s) (body s) (code s) (Some t)).
Proof.
  intros sid t l s. unfold find_section, patch.
  induction l as [|x l IH]; intro H; [discriminate|].
  cbn [find map] in *. destruct (str_eqb (id x) sid) eqn:E.
  - injection H as <-. cbn [id]. now rewrite E.
  - rewrite E. now apply IH.
Qed.

Lemma includes_refl_app : forall p b, startsWith p (p ++ b) = true.
Proof.
  induction p as [|c p IH]; intro b; [reflexivity|].
  cbn [app startsWith]. now rewrite N.eqb_refl, IH.
Qed.

Lemma includes_middle : forall a p b, includes p (a ++ p ++ b) = true.
Proof.
  induction a as [|c a IH]; intros p b.
  - cbn [app]. destruct (p ++ b) eqn:E; cbn [includes];
      rewrite <- E, includes_refl_app; reflexivity.
  - cbn [app includes]. rewrite IH. apply orb_true_r.
Qed.

Lemma testMermaidCode_present :
  forall heading, present (Some (testMermaidCode heading)) = true.
Proof. reflexivity. Qed.

Lemma synthesize_present :
  forall lower heading body,
    present (Some (synthesize lower heading body)) = true.
Proof.
  intros lower heading body. unfold synthesize, diagram, root.
  destruct (is_workflow lower body); [reflexivity|].
  destruct (is_system lower body); [reflexivity|].
  destruct (is_comparison lower body); reflexivity.
Qed.

(** X23. In the revision with the fixed diagram a generation is over when
    the click returns: for a section that exists, the slot is free again
    and nothing is in flight because of it, the section found has the fixed
    diagram around its heading as diagram markup, its canvas shows the
    template around that markup whatever custom content it has, and only
    diagram markup was written. *)
Theorem test_generation_shows_diagram :
  forall (st : State) (sectionId : jsstring) (sec : Section),
    find_section sectionId (sections st) = Some sec ->
    generatingMermaid (generateMermaidDiagram_test st sectionId) = None
    /\ inflight (generateMermaidDiagram_test st sectionId) = inflight st
    /\ option_map preview
         (find_section sectionId
            (sections (generateMermaidDiagram_test st sectionId)))
       = Some (mermaid_head ++ testMermaidCode (heading sec) ++ mermaid_tail)
    /\ map id (sections (generateMermaidDiagram_test st sectionId))
       = map id (sections st)
    /\ map content (sections (generateMermaidDiagram_test st sectionId))
       = map content (sections st)
    /\ map code (sections (generateMermaidDiagram_test st sectionId))
       = map code (sections st).
Proof.
  intros st sid sec H.
  unfold generateMermaidDiagram_test, generate_sync. rewrite H.
  cbn [generatingMermaid inflight sections].
  destruct (patch_frame sid (testMermaidCode (heading sec)) (sections st))
    as [H1 [H2 [H3 H4]]].
  repeat split; try assumption.
  - rewrite (find_patch sid _ (sections st) sec H). cbn [option_map].
    unfold preview. cbn [mermaidCode code]. unfold srcDoc.
    now rewrite testMermaidCode_present.
  - apply patch_content.
Qed.

Lemma test_generation_shows_diagram_witness :
  generatingMermaid (generateMermaidDiagram_test two_sections id_B) = None
  /\ inflight (generateMermaidDiagram_test two_sections id_B)
     = inflight two_sections
  /\ option_map preview
       (find_section id_B (sections (generateMermaidDiagram_test two_sections id_B)))
     = Some (mermaid_head
             ++ testMermaidCode (heading (mkSection id_B (lit "B") [] None None))
             ++ mermaid_tail)
  /\ map id (sections (generateMermaidDiagram_test two_sections id_B))
     = map id (sections two_sections)
  /\ map content (sections (generateMermaidDiagram_test two_sections id_B))
     = map content (sections two_sections)
  /\ map code (sections (generateMermaidDiagram_test two_sections id_B))
     = map code (sections two_sections).
Proof.
  apply (test_generation_shows_diagram two_sections id_B
           (mkSection id_B (lit "B") [] None None)).
  reflexivity.
Defined.

(** X24. In the revision with the keyword driven diagram a generation is
    over when the click returns: for a section that exists, the slot is free
    again, and the diagram markup of every section with that identifier is
    the markup synthesized from the section found, which is never empty (so
    that its canvas takes the diagram branch) and holds the heading as it
    is, without any escaping; the diagram markup of the other sections is
    left as it was. *)
Theorem keyword_generation_settles :
  forall (toLowerCase : jsstring -> jsstring) (st : State)
         (sectionId : jsstring) (sec : Section),
    find_section sectionId (sections st) = Some sec ->
    generatingMermaid (generateMermaidDiagram_keyword toLowerCase st sectionId)
    = None
    /\ inflight (generateMermaidDiagram_keyword toLowerCase st sectionId)
       = inflight st
    /\ map mermaidCode
         (sections (generateMermaidDiagram_keyword toLowerCase st sectionId))
       = map (fun s =>
                if str_eqb (id s) sectionId
                then Some (synthesize toLowerCase (heading sec) (body sec))
                else mermaidCode s)
             (sections st)
    /\ present (Some (synthesize toLowerCase (heading sec) (body sec))) = true
    /\ includes (heading sec) (synthesize toLowerCase (heading sec) (body sec))
       = true.
Proof.
  intros lower st sid sec H.
  unfold generateMermaidDiagram_keyword, generate_sync. rewrite H.
  cbn [generatingMermaid inflight sections].
  repeat split.
  - apply patch_mermaid_codes.
  - apply synthesize_present.
  - unfold synthesize, diagram, root.
    destruct (is_workflow lower (body sec));
      [|destruct (is_system lower (body sec));
        [|destruct (is_comparison lower (body sec))]];
      rewrite <- !app_assoc;
      match goal with
      | |- includes ?h (?k ++ ?l ++ ?a ++ ?h ++ ?r) = true =>
          replace (k ++ l ++ a ++ h ++ r) with ((k ++ l ++ a) ++ h ++ r)
            by (rewrite <- !app_assoc; reflexivity);
          apply includes_middle
      end.
Qed.

Lemma keyword_generation_settles_witness :
  generatingMermaid
    (generateMermaidDiagram_keyword toLowerCase_ascii two_sections id_A)
  = None
  /\ inflight (generateMermaidDiagram_keyword toLowerCase_ascii two_sections id_A)
     = inflight two_sections
  /\ map mermaidCode
       (sections
          (generateMermaidDiagram_keyword toLowerCase_ascii two_sections id_A))
     = map (fun s =>
              if str_eqb (id s) id_A
              then Some (synthesize toLowerCase_ascii
                           (heading (mkSection id_A (lit "A") [] None None))
                           (body (mkSection id_A (lit "A") [] None None)))
              else mermaidCode s)
           (sections two_sections)
  /\ present
       (Some (synthesize toLowerCase_ascii
                (heading (mkSection id_A (lit "A") [] None None))
                (body (mkSection id_A (lit "A") [] None None))))
     = true
  /\ includes (heading (mkSection id_A (lit "A") [] None None))
       (synthesize toLowerCase_ascii
          (heading (mkSection id_A (lit "A") [] None None))
          (body (mkSection id_A (lit "A") [] None None)))
     = true.
Proof.
  apply (keyword_generation_settles toLowerCase_ascii two_sections id_A
           (mkSection id_A (lit "A") [] None None)).
  reflexivity.
Defined.

(** ** The generated animation *)

Lemma key_point_length :
  forall s, 20 < List.length (trim s) -> 21 <= List.length (key_point s) <= 53.
Proof.
  intros s H. unfold key_point. cbv zeta.
  destruct (Nat.ltb_spec 50 (List.length (trim s))) as [Hl|Hl].
  - unfold substring0. rewrite length_app, length_firstn.
    change (List.length (lit "...")) with 3. lia.
  - lia.
Qed.

(** X25. The generated animation lists at most three key points; each of
    them comes from a sentence of the body whose trimmed text is longer than
    20 code units, and is between 21 and 53 code units long, however long
    that sentence is. *)
Theorem key_points_bounded :
  forall body : jsstring,
    List.length (keyPoints body) <= 3
    /\ Forall (fun p =>
                 21 <= List.length p <= 53
                 /\ exists s, In s (split_sentences body)
                              /\ 20 < List.length (trim s)
                              /\ p = key_point s)
              (keyPoints body).
Proof.
  intro body. unfold keyPoints. split.
  - rewrite length_map, length_firstn. lia.
  - apply Forall_forall. intros p Hp.
    apply in_map_iff in Hp. destruct Hp as [s [<- Hs]].
    apply In_firstn in Hs. unfold sentences in Hs.
    apply filter_In in Hs. destruct Hs as [Hin Hlen].
    apply Nat.ltb_lt in Hlen. split.
    + now apply key_point_length.
    + exists s. repeat split; assumption.
Qed.

Lemma animation_present :
  forall lower sec, present (Some (animation_of lower sec)) = true.
Proof. reflexivity. Qed.

(** X26. Generating the animation of a section that exists is over when the
    click returns: the slot is free again, the custom content of every
    section with that identifier is the document built from the section
    found, which is never empty and holds the heading as it is, without any
    escaping; identifiers, headings, bodies and diagram markup are left as
    they were. *)
Theorem animation_generation_settles :
  forall (toLowerCase : jsstring -> jsstring) (st : State)
         (sectionId : jsstring) (sec : Section),
    find_section sectionId (sections st) = Some sec ->
    generatingMermaid (generateAnimation toLowerCase st sectionId) = None
    /\ inflight (generateAnimation toLowerCase st sectionId) = inflight st
    /\ map code (sections (generateAnimation toLowerCase st sectionId))
       = map (fun s =>
                if str_eqb (id s) sectionId
                then Some (animation_of toLowerCase sec)
                else code s)
             (sections st)
    /\ map mermaidCode (sections (generateAnimation toLowerCase st sectionId))
       = map mermaidCode (sections st)
    /\ map id (sections (generateAnimation toLowerCase st sectionId))
       = map id (sections st)
    /\ map content (sections (generateAnimation toLowerCase st sectionId))
       = map content (sections st)
    /\ present (Some (animation_of toLowerCase sec)) = true
    /\ includes (heading sec) (animation_of toLowerCase sec) = true.
Proof.
  intros lower st sid sec H. unfold generateAnimation. rewrite H.
  cbn [generatingMermaid inflight sections].
  destruct (patch_code_frame sid (animation_of lower sec) (sections st))
    as [H1 [H2 [H3 H4]]].
  split; [reflexivity|]. split; [reflexivity|].
  split; [apply patch_code_codes|].
  split; [exact H4|]. split; [exact H1|].
  split; [|split].
  - unfold patch_code. rewrite map_map. apply map_ext.
    intro s. now destruct (str_eqb (id s) sid).
  - apply animation_present.
  - unfold animation_of, animationCode. apply includes_middle.
Qed.

Lemma animation_generation_settles_witness :
  generatingMermaid (generateAnimation toLowerCase_ascii two_sections id_A) = None
  /\ inflight (generateAnimation toLowerCase_ascii two_sections id_A)
     = inflight two_sections
  /\ map code (sections (generateAnimation toLowerCase_ascii two_sections id_A))
     = map (fun s =>
              if str_eqb (id s) id_A
              then Some (animation_of toLowerCase_ascii
                           (mkSection id_A (lit "A") [] None None))
              else code s)
           (sections two_sections)
  /\ map mermaidCode
       (sections (generateAnimation toLowerCase_ascii two_sections id_A))
     = map mermaidCode (sections two_sections)
  /\ map id (sections (generateAnimation toLowerCase_ascii two_sections id_A))
     = map id (sections two_sections)
  /\ map content
       (sections (generateAnimation toLowerCase_ascii two_sections id_A))
     = map content (sections two_sections)
  /\ present
       (Some (animation_of toLowerCase_ascii
                (mkSection id_A (lit "A") [] None None)))
     = true
  /\ includes (heading (mkSection id_A (lit "A") [] None None))
       (animation_of toLowerCase_ascii (mkSection id_A (lit "A") [] None None))
     = true.
Proof.
  apply (animation_generation_settles toLowerCase_ascii two_sections id_A
           (mkSection id_A (lit "A") [] None None)).
  reflexivity.
Defined.

Lemma find_section_map :
  forall (f : Section -> Section) sid l,
    (forall s, id (f s) = id s) ->
    find_section sid (map f l) = option_map f (find_section sid l).
Proof.
  intros f sid l Hf. unfold find_section.
  induction l as [|x l IH]; [reflexivity|].
  cbn [map find]. rewrite Hf. now destruct (str_eqb (id x) sid).
Qed.

Lemma find_section_patch :
  forall a y b l,
    find_section b (patch a y l)
    = option_map
        (fun s => if str_eqb (id s) a
                  then mkSection (id s) (heading s) (body s) (code s) (Some y)
                  else s)
        (find_section b l).
Proof.
  intros a y b l. unfold patch. apply find_section_map.
  intro s. now destruct (str_eqb (id s) a).
Qed.

Lemma find_section_patch_code :
  forall a y b l,
    find_section b (patch_code a y l)
    = option_map
        (fun s => if str_eqb (id s) a
                  then mkSection (id s) (heading s) (body s) (Some y)
                         (mermaidCode s)
                  else s)
        (find_section b l).
Proof.
  intros a y b l. unfold patch_code. apply find_section_map.
  intro s. now destruct (str_eqb (id s) a).
Qed.

Lemma patch_patch_code :
  forall a y b x l,
    patch_code b x (patch a y l) = patch a y (patch_code b x l).
Proof.
  intros a y b x l. unfold patch, patch_code. rewrite !map_map.
  apply map_ext. intro s.
  destruct (str_eqb (id s) a) eqn:Ea; destruct (str_eqb (id s) b) eqn:Eb;
    cbn [id heading body code mermaidCode]; rewrite ?Ea, ?Eb; reflexivity.
Qed.

(** X27. The diagram and the animation of the keyword driven revision can
    be generated in either order, for the same section or for two sections:
    the store ends in the same state, since each is computed from the
    heading and the body only and writes a field of its own. *)
Theorem generations_commute :
  forall (toLowerCase : jsstring -> jsstring) (st : State)
         (a b : jsstring),
    generateAnimation toLowerCase
      (generateMermaidDiagram_keyword toLowerCase st a) b
    = generateMermaidDiagram_keyword toLowerCase
        (generateAnimation toLowerCase st b) a.
Proof.
  intros lower st a b.
  unfold generateMermaidDiagram_keyword, generate_sync, generateAnimation.
  destruct (find_section a (sections st)) as [sa|] eqn:Ha;
    destruct (find_section b (sections st)) as [sb|] eqn:Hb;
    cbn [sections inflight generatingMermaid];
    rewrite ?find_section_patch, ?find_section_patch_code, ?Ha, ?Hb;
    cbn [option_map]; try reflexivity.
  assert (E1 : forall t,
             animation_of lower
               (if str_eqb (id sb) a
                then mkSection (id sb) (heading sb) (body sb) (code sb) (Some t)
                else sb)
             = animation_of lower sb)
    by (intro t; now destruct (str_eqb (id sb) a)).
  rewrite E1. cbn [sections inflight].
  rewrite patch_patch_code.
  destruct (str_eqb (id sa) b); reflexivity.
Qed.
